(** * SafeSpace mobile client: a model of its screen operations

    The client is a React Native application: screens are components whose
    event handlers are [async] functions.  A handler reads the values captured
    by its closure (auth token, route parameters, form fields), calls the
    environment ([fetch], [response.json()], [SecureStore], [Math.random]) and
    issues UI commands (state setters, [Alert.alert], [console.error],
    [router]).

    Handlers are embedded as terms of a small free monad [Prog]: one
    constructor per kind of step, [try]/[catch]/[finally] as functions on
    programs.  An interpreter runs a program against an environment that
    decides every answer the outside world gives, and returns the outcome, the
    final client state and the events of the invocation.

    A string is the sequence of the UTF-8 bytes of a JavaScript string that
    holds no lone surrogate; white space and lengths are those of
    JavaScript, read off the bytes.  A number is a rational; where the code
    multiplies, the product is rounded to binary64 as the processor rounds
    it. *)

From Stdlib Require Import Ascii String QArith Qround Qpower Lia Lqa.
From stdpp Require Import base strings pretty list gmap.

Local Open Scope string_scope.
Set Warnings "-register-all".

(** ** Data *)

(** JSON values, as produced by [response.json()] and consumed unread. *)
Inductive Json : Type :=
| JNull
| JBool (b : bool)
| JNum (q : Q)
| JStr (s : string)
| JArr (items : list Json)
| JObj (fields : list (string * Json)).

(** [interface User] of hooks/useAuth.tsx. *)
Record User : Type := {
  id : string;
  email : string;
  firstName : string;
  lastName : string;
  username : string;
  phoneNumber : option string;
  emergencyContact : option string }.

(** [interface LoginResponse] of hooks/useAuth.tsx. *)
Record LoginResponse : Type := {
  access_token : string;
  token_type : string }.

(** The body of [GET /user/me], with the fields [signIn] reads. *)
Record BackendUser : Type := {
  _id : string;
  bu_email : string;
  bu_username : string;
  first_name : string;
  last_name : string;
  phone_number : option string;
  emergency_contact : option string }.

(** [interface Space] and [interface Patient] of the space screen with the
    edit modal. *)
Record Space : Type := {
  space__id : string;
  space_name : string;
  description : option string;
  patient_ids : option (list string) }.

Record Patient : Type := {
  patient__id : string;
  patient_name : string;
  patient_condition : string;
  patient_age : Q;
  medical_history : option string }.

(** The body of the conversational agent's reply, with the fields [onSend]
    reads; [JNull] is a history that is [null] or missing. *)
Record AgentReply : Type := {
  agent_response : option string;
  agent_history : Json }.

(** What a [catch] clause can receive: an [Error] instance with its message,
    or some other thrown value. *)
Inductive Err : Type :=
| ErrorObj (message : string)
| NonError.

(** The state of a promise once it has settled. *)
Inductive Settled (A : Type) : Type :=
| Fulfilled (a : A)
| Rejected (e : Err).
Arguments Fulfilled {A} a.
Arguments Rejected {A} e.

(** ** HTTP *)

Inductive Method : Type := GET | POST | PUT | DELETE.

(** The two places the base URL comes from: the literal of hooks/useAuth.tsx
    and tabs/index.tsx, and [config.backendApiUrl]. *)
Inductive Base : Type := LiteralBase | ConfigBase.

Inductive FormPart : Type :=
| FieldPart (value : string)
| FilePart (uri name type : string).

(** A request body: none, [JSON.stringify] of a value, or a [FormData]. *)
Inductive Payload : Type :=
| NoPayload
| JsonPayload (j : Json)
| FormPayload (parts : list (string * FormPart)).

Record Request : Type := {
  method : Method;
  base : Base;
  path : string;
  headers : list (string * string);
  body : Payload }.

Record Response : Type := {
  status : Z;
  statusText : string }.

(** [response.ok]: the status is in the range 200-299. *)
Definition ok (r : Response) : bool :=
  (200 <=? status r)%Z && (status r <=? 299)%Z.

(** The types at which the handlers read a response body. *)
Inductive BodyKind : Type :=
| KLogin | KBackendUser | KErrorDetail | KOpaque | KAgent | KSpace | KPatients.

Definition body_of (k : BodyKind) : Type :=
  match k with
  | KLogin => LoginResponse
  | KBackendUser => BackendUser
  | KErrorDetail => option string
  | KOpaque => Json
  | KAgent => AgentReply
  | KSpace => Space
  | KPatients => list Patient
  end.

(** ** Steps of a handler *)

(** Calls answered by the environment. *)
Inductive Query : Type :=
| Fetch (req : Request)
| ReadJson (k : BodyKind) (r : Response)
| ReadText (r : Response)
| SecureGet (key : string)
| SecureSet (key : string) (v : string)
| SecureDelete (key : string)
| JsonStringify (u : User)
| JsonParse (s : string)
| ParseInt (s : string)
| MathRandom.

Definition value (q : Query) : Type :=
  match q with
  | Fetch _ => Response
  | ReadJson k _ => body_of k
  | ReadText _ => string
  | SecureGet _ => option string
  | SecureSet _ _ => unit
  | SecureDelete _ => unit
  | JsonStringify _ => string
  | JsonParse _ => User
  | ParseInt _ => Json
  | MathRandom => Q
  end.

(** [JSON.stringify], [JSON.parse], [parseInt] and [Math.random] answer at
    once; the others return a promise that the handler awaits. *)
Definition is_async (q : Query) : bool :=
  match q with
  | JsonStringify _ | JsonParse _ | ParseInt _ | MathRandom => false
  | _ => true
  end.

(** Boolean state variables of the components. *)
Inductive Flag : Type :=
| AuthIsLoading        (* useAuth: isLoading *)
| LoginIsSubmitting    (* login: isSubmitting *)
| SignUpIsSubmitting   (* signup: isSubmitting *)
| HomeIsLoading        (* home screens: isLoading *)
| SpaceLoading         (* space screens: loading *)
| SpaceRefreshing      (* space screen with edit modal: refreshing *)
| LogLoading           (* log detail screens: loading *)
| AddIsLoading         (* add-space screens: isLoading *)
| AddLoadingPatients   (* add-space screen: loadingPatients *)
| CaptureUploading     (* capture screens: uploading *)
| ChatLoading          (* chat screens: loading *)
| ChatShowSuggestions  (* chat screen: showSuggestions *)
| ProfileIsLoading     (* profile screen: isLoading *)
| ProfileIsEditing     (* profile screen: isEditing *)
| EditModalVisible     (* space screen: isEditModalVisible *)
| PatientModalVisible. (* home screen: isPatientModalVisible *)

Global Instance Flag_eq_dec : EqDecision Flag.
Proof. solve_decision. Defined.

(** Who wrote a chat message. *)
Inductive Author : Type := FromUser | FromAgent.

(** Synchronous commands: they return nothing and do not throw. *)
Inductive Cmd : Type :=
| SetFlag (f : Flag) (b : bool)
| SetToken (t : option string)
| SetUser (u : option User)
| SetData (slot : string) (v : Json)
| SetSpace (s : Space) (id : string)
| SetSelectedPatientIds (ids : list string)
| SetAllPatients (ps : list Patient)
| SetSpacePatients (ps : list Patient)
| SetText (slot : string) (s : string)
| SetUserData (u : User)
| SetErrors (errs : list (string * string))
| AppendMessages (who : Author) (texts : list string)
| AlertShown (title message : string)
| ConsoleError (label : string)
| RouterReplace (route : string)
| RouterPush (route : string).

(** Programs.  [Ask] hands a query to the environment and continues with its
    settled answer; [Spawn] calls an [async] function without awaiting it. *)
Inductive Prog (A : Type) : Type :=
| Ret (a : A)
| Throw (e : Err)
| Do (c : Cmd) (k : Prog A)
| Ask (q : Query) (k : Settled (value q) -> Prog A)
| Spawn (t : Prog unit) (k : Prog A).
Arguments Ret {A} a.
Arguments Throw {A} e.
Arguments Do {A} c k.
Arguments Ask {A} q k.
Arguments Spawn {A} t k.

Fixpoint bind {A B : Type} (p : Prog A) (f : A -> Prog B) : Prog B :=
  match p with
  | Ret a => f a
  | Throw e => Throw e
  | Do c k => Do c (bind k f)
  | Ask q k => Ask q (fun r => bind (k r) f)
  | Spawn t k => Spawn t (bind k f)
  end.

Global Instance Prog_ret : MRet Prog := @Ret.
Global Instance Prog_bind : MBind Prog := fun A B f p => bind p f.

(** A single command. *)
Definition exec (c : Cmd) : Prog unit := Do c (Ret tt).

(** [await q] and synchronous calls alike: a rejection is thrown at the
    caller. *)
Definition await (q : Query) : Prog (value q) :=
  Ask q (fun r => match r with Fulfilled v => Ret v | Rejected e => Throw e end).

(** Calling an [async] function and dropping its promise. *)
Definition spawn (t : Prog unit) : Prog unit := Spawn t (Ret tt).

(** [try { p } catch (error) { h error }]. *)
Fixpoint try_catch {A : Type} (p : Prog A) (h : Err -> Prog A) : Prog A :=
  match p with
  | Ret a => Ret a
  | Throw e => h e
  | Do c k => Do c (try_catch k h)
  | Ask q k => Ask q (fun r => try_catch (k r) h)
  | Spawn t k => Spawn t (try_catch k h)
  end.

(** [try { p } finally { f }]: [f] runs on both exits and the exit of [p] is
    kept, unless [f] itself throws. *)
Fixpoint try_finally {A : Type} (p : Prog A) (f : Prog unit) : Prog A :=
  match p with
  | Ret a => bind f (fun _ => Ret a)
  | Throw e => bind f (fun _ => Throw e)
  | Do c k => Do c (try_finally k f)
  | Ask q k => Ask q (fun r => try_finally (k r) f)
  | Spawn t k => Spawn t (try_finally k f)
  end.

(** [try { p } catch (error) { h error } finally { f }]. *)
Definition try_catch_finally {A : Type}
    (p : Prog A) (h : Err -> Prog A) (f : Prog unit) : Prog A :=
  try_finally (try_catch p h) f.

(** ** The client state and the environment *)

(** A task that waits for a promise. *)
Record Task : Type := {
  waiting_on : Query;
  resume : Settled (value waiting_on) -> Prog unit }.

(** The state that outlives one handler: the auth context, the flags of the
    mounted components, the device's secure storage, the number of calls made
    to the environment so far and the tasks started and not yet resumed. *)
Record World : Type := {
  auth_user : option User;
  auth_token : option string;
  flags : Flag -> bool;
  secure_store : gmap string string;
  clock : nat;
  parked : list Task }.

(** The outside world.  Every answer is indexed by the number of calls made
    before it, so that one environment scripts a whole session. *)
Record Env : Type := {
  net : nat -> Request -> Settled Response;          (* fetch *)
  body_read : forall k, nat -> Response -> Settled (body_of k);  (* json() *)
  text_read : nat -> Response -> Settled string;     (* text() *)
  keychain_fault : nat -> string -> option Err;      (* SecureStore failing *)
  stringify_user : User -> string;                   (* JSON.stringify *)
  parse_user : string -> Settled User;               (* JSON.parse *)
  parse_int : string -> Json;                        (* parseInt, serialised *)
  random : nat -> Q }.                               (* Math.random *)

(** Events of an invocation, oldest first. *)
Inductive Event : Type :=
| Requested (req : Request)
| Responded (req : Request) (r : Settled Response)
| Ran (c : Cmd).

Definition set_flag (f : Flag) (b : bool) (fl : Flag -> bool) : Flag -> bool :=
  fun g => if decide (g = f) then b else fl g.

(** The effect of a command on the state. *)
Definition apply_cmd (c : Cmd) (w : World) : World :=
  match c with
  | SetFlag f b =>
      {| auth_user := auth_user w; auth_token := auth_token w;
         flags := set_flag f b (flags w); secure_store := secure_store w;
         clock := clock w; parked := parked w |}
  | SetToken t =>
      {| auth_user := auth_user w; auth_token := t;
         flags := flags w; secure_store := secure_store w;
         clock := clock w; parked := parked w |}
  | SetUser u =>
      {| auth_user := u; auth_token := auth_token w;
         flags := flags w; secure_store := secure_store w;
         clock := clock w; parked := parked w |}
  | _ => w
  end.

Definition tick (w : World) : World :=
  {| auth_user := auth_user w; auth_token := auth_token w;
     flags := flags w; secure_store := secure_store w;
     clock := S (clock w); parked := parked w |}.

Definition with_store (s : gmap string string) (w : World) : World :=
  {| auth_user := auth_user w; auth_token := auth_token w;
     flags := flags w; secure_store := s;
     clock := clock w; parked := parked w |}.

Definition park (t : Task) (w : World) : World :=
  {| auth_user := auth_user w; auth_token := auth_token w;
     flags := flags w; secure_store := secure_store w;
     clock := clock w; parked := parked w ++ [t] |}.

Definition faulty {A : Type} (fault : option Err) (a : A) : Settled A :=
  match fault with
  | Some e => Rejected e
  | None => Fulfilled a
  end.

(** The answer to a query in a state.  Reads of the secure store return what
    the store holds; a write changes the store when it does not fail. *)
Definition answer (env : Env) (q : Query) (w : World) : Settled (value q) :=
  match q as q0 return Settled (value q0) with
  | Fetch req => net env (clock w) req
  | ReadJson k r => body_read env k (clock w) r
  | ReadText r => text_read env (clock w) r
  | SecureGet key => faulty (keychain_fault env (clock w) key) (secure_store w !! key)
  | SecureSet key _ => faulty (keychain_fault env (clock w) key) tt
  | SecureDelete key => faulty (keychain_fault env (clock w) key) tt
  | JsonStringify u => Fulfilled (stringify_user env u)
  | JsonParse s => parse_user env s
  | ParseInt s => Fulfilled (parse_int env s)
  | MathRandom => Fulfilled (random env (clock w))
  end.

Definition after (env : Env) (q : Query) (w : World) : World :=
  match q with
  | SecureSet key v =>
      match keychain_fault env (clock w) key with
      | None => tick (with_store (<[key := v]> (secure_store w)) w)
      | Some _ => tick w
      end
  | SecureDelete key =>
      match keychain_fault env (clock w) key with
      | None => tick (with_store (delete key (secure_store w)) w)
      | Some _ => tick w
      end
  | _ => tick w
  end.

(** The events of a call and of its answer. *)
Definition call_events (q : Query) : list Event :=
  match q with
  | Fetch req => [Requested req]
  | _ => []
  end.

Definition answer_events (q : Query) : Settled (value q) -> list Event :=
  match q as q0 return Settled (value q0) -> list Event with
  | Fetch req => fun r => [Responded req r]
  | _ => fun _ => []
  end.

(** How a handler ends. *)
Inductive Outcome (A : Type) : Type :=
| Returned (a : A)
| Threw (e : Err).
Arguments Returned {A} a.
Arguments Threw {A} e.

Record Run (A : Type) : Type := {
  outcome : A;
  final : World;
  events : list Event }.
Arguments outcome {A} r.
Arguments final {A} r.
Arguments events {A} r.

Definition emit {A : Type} (es : list Event) (r : Run A) : Run A :=
  match r with
  | {| outcome := o; final := w; events := tr |} =>
      {| outcome := o; final := w; events := es ++ tr |}
  end.

(** Starting a task: it runs up to its first [await] and is parked there.  A
    task that ends, or throws with nobody awaiting it, leaves nothing
    behind. *)
Fixpoint start (env : Env) (t : Prog unit) (w : World) : Run unit :=
  match t with
  | Ret _ => {| outcome := tt; final := w; events := [] |}
  | Throw _ => {| outcome := tt; final := w; events := [] |}
  | Do c k => emit [Ran c] (start env k (apply_cmd c w))
  | Ask q k =>
      if is_async q
      then {| outcome := tt;
              final := park {| waiting_on := q; resume := k |} w;
              events := call_events q |}
      else emit (call_events q ++ answer_events q (answer env q w))
                (start env (k (answer env q w)) (after env q w))
  | Spawn t' k =>
      let r := start env t' w in
      emit (events r) (start env k (final r))
  end.

(** Running a handler to its end, every awaited promise settling before
    anything else happens.  Tasks it spawns are started and left parked. *)
Fixpoint run {A : Type} (env : Env) (p : Prog A) (w : World) : Run (Outcome A) :=
  match p with
  | Ret a => {| outcome := Returned a; final := w; events := [] |}
  | Throw e => {| outcome := Threw e; final := w; events := [] |}
  | Do c k => emit [Ran c] (run env k (apply_cmd c w))
  | Ask q k =>
      emit (call_events q ++ answer_events q (answer env q w))
           (run env (k (answer env q w)) (after env q w))
  | Spawn t k =>
      let r := start env t w in
      emit (events r) (run env k (final r))
  end.

(** The event loop resuming the [i]-th parked task: its promise settles and
    the task runs to its next [await]. *)
Definition settle (env : Env) (i : nat) (w : World) : Run unit :=
  match parked w !! i with
  | None => {| outcome := tt; final := w; events := [] |}
  | Some t =>
      let w0 :=
        {| auth_user := auth_user w; auth_token := auth_token w;
           flags := flags w; secure_store := secure_store w;
           clock := clock w; parked := delete i (parked w) |} in
      let a := answer env (waiting_on t) w0 in
      emit (answer_events (waiting_on t) a)
           (start env (resume t a) (after env (waiting_on t) w0))
  end.

(** ** JavaScript helpers the handlers rely on *)

(** The integer nearest to [y], the even one when two are as near. *)
Definition round_even (y : Q) : Z :=
  let f := Qfloor y in
  match (y - inject_Z f ?= 1 # 2)%Q with
  | Lt => f
  | Gt => (f + 1)%Z
  | Eq => if Z.even f then f else (f + 1)%Z
  end.

(** The exponent [k] with [2 ^ k <= x < 2 ^ (k + 1)], for a positive [x]. *)
Definition binade (x : Q) : Z :=
  let d := (Z.log2 (Qnum x) - Z.log2 (Zpos (Qden x)))%Z in
  if Qle_bool (2 ^ d) x then d else (d - 1)%Z.

Definition to_double_pos (x : Q) : Q :=
  let e := Z.max (binade x - 52) (-1074) in
  (inject_Z (round_even (x / 2 ^ e)) * 2 ^ e)%Q.

(** The binary64 number nearest to [x], ties to even: 53 significant bits,
    gradual underflow, [x] below the overflow threshold in magnitude. *)
Definition to_double (x : Q) : Q :=
  match (x ?= 0)%Q with
  | Eq => 0%Q
  | Gt => to_double_pos x
  | Lt => (- to_double_pos (- x))%Q
  end.

(** The finite binary64 numbers. *)
Definition is_double (x : Q) : Prop :=
  exists m e : Z,
    (x == inject_Z m * 2 ^ e)%Q
    /\ (Z.abs m < 2 ^ 53)%Z /\ (-1074 <= e <= 971)%Z.

(** [Math.floor (r * n)] in binary64, for a double [r] and an integer [n]. *)
Definition floor_times (r : Q) (n : Z) : Z :=
  Qfloor (to_double (r * inject_Z n)).


(** White space and line terminators of JavaScript, the class [\s] and what
    [trim] strips, in UTF-8: the six of ASCII; U+00A0; U+1680; U+2000 to
    U+200A, U+2028, U+2029, U+202F; U+205F; U+3000; U+FEFF. *)
Definition is_space1 (c : ascii) : bool := Ascii.is_space c.

Definition is_space2 (c1 c2 : ascii) : bool :=
  (nat_of_ascii c1 =? 194)%nat && (nat_of_ascii c2 =? 160)%nat.

Definition is_space3 (c1 c2 c3 : ascii) : bool :=
  let n1 := nat_of_ascii c1 in
  let n2 := nat_of_ascii c2 in
  let n3 := nat_of_ascii c3 in
  ((n1 =? 225) && (n2 =? 154) && (n3 =? 128)
   || (n1 =? 226) && (n2 =? 128)
      && ((128 <=? n3) && (n3 <=? 138) || (n3 =? 168) || (n3 =? 169) || (n3 =? 175))
   || (n1 =? 226) && (n2 =? 129) && (n3 =? 159)
   || (n1 =? 227) && (n2 =? 128) && (n3 =? 128)
   || (n1 =? 239) && (n2 =? 187) && (n3 =? 191))%nat.

(** The string without the white space it starts with; [backwards] when the
    bytes come last first. *)
Fixpoint strip_spaces (backwards : bool) (s : string) : string :=
  match s with
  | String c1 s1 =>
      if is_space1 c1 then strip_spaces backwards s1
      else
        match s1 with
        | String c2 s2 =>
            if (if backwards then is_space2 c2 c1 else is_space2 c1 c2)
            then strip_spaces backwards s2
            else
              match s2 with
              | String c3 s3 =>
                  if (if backwards then is_space3 c3 c2 c1 else is_space3 c1 c2 c3)
                  then strip_spaces backwards s3
                  else s
              | EmptyString => s
              end
        | EmptyString => s
        end
  | EmptyString => EmptyString
  end.

(** [s.trimStart()]. *)
Definition trim_start (s : string) : string := strip_spaces false s.

(** [s.trim()]. *)
Definition trim (s : string) : string :=
  String.rev (strip_spaces true (String.rev (trim_start s))).

(** [s.length]: the number of UTF-16 code units, one for a character of one,
    two or three bytes, two for a character of four bytes. *)
Fixpoint code_units (s : string) : nat :=
  match s with
  | EmptyString => 0
  | String c s' =>
      let n := nat_of_ascii c in
      ((if n <? 128 then 1 else if n <? 192 then 0 else if n <? 240 then 1 else 2)
       + code_units s')%nat
  end.

(** Truthiness of a string: the empty string is falsy. *)
Definition truthy (s : string) : bool :=
  match s with
  | EmptyString => false
  | String _ _ => true
  end.

(** Truthiness of a [string | null] or [string | undefined]. *)
Definition truthy_opt (o : option string) : bool :=
  match o with
  | Some s => truthy s
  | None => false
  end.

(** [a || b] on strings. *)
Definition or_else (a : option string) (b : string) : string :=
  match a with
  | Some s => if truthy s then s else b
  | None => b
  end.

(** A [string | null] inside a template literal. *)
Definition show_null (o : option string) : string := default "null" o.

(** A [string | undefined] inside a template literal. *)
Definition show_undefined (o : option string) : string := default "undefined" o.

(** [error instanceof Error ? error.message : fallback]. *)
Definition message_or (e : Err) (fallback : string) : string :=
  match e with
  | ErrorObj m => m
  | NonError => fallback
  end.

(** [arr.includes (x)] on strings. *)
Definition includes (x : string) (arr : list string) : bool :=
  bool_decide (x ∈ arr).

(** The character classes of the regular expressions in use. *)
Definition is_digit (c : ascii) : bool :=
  match Ascii.is_nat c with Some _ => true | None => false end.

Definition is_word_char (c : ascii) : bool :=
  let n := nat_of_ascii c in
  is_digit c || ((65 <=? n)%nat && (n <=? 90)%nat)
  || ((97 <=? n)%nat && (n <=? 122)%nat) || (n =? 95)%nat.

Definition chars (s : string) : list ascii := list_ascii_of_string s.

(** [/^[a-zA-Z0-9_]+$/.test (s)]. *)
Definition usernameRegex_test (s : string) : bool :=
  truthy s && forallb is_word_char (chars s).

(** A white-space character starts here. *)
Definition starts_space (l : list ascii) : bool :=
  match l with
  | c1 :: l1 =>
      is_space1 c1
      || match l1 with
         | c2 :: l2 =>
             is_space2 c1 c2
             || match l2 with
                | c3 :: _ => is_space3 c1 c2 c3
                | [] => false
                end
         | [] => false
         end
  | [] => false
  end.

(** Some character of the string matches [\s]. *)
Fixpoint has_space (l : list ascii) : bool :=
  match l with
  | [] => false
  | _ :: l' => starts_space l || has_space l'
  end.

(** [[^\s@]+\.[^\s@]+] anchored at both ends: some dot has a non-empty part
    on either side, and no character is white space or an at sign. *)
Fixpoint has_inner_dot (seen : bool) (l : list ascii) : bool :=
  match l with
  | [] => false
  | c :: l' =>
      (seen && bool_decide (c = "."%char) && negb (bool_decide (l' = [])))
      || has_inner_dot true l'
  end.

(** The parts before and after the first at sign. *)
Fixpoint split_at_sign (l : list ascii) : option (list ascii * list ascii) :=
  match l with
  | [] => None
  | c :: l' =>
      if bool_decide (c = "@"%char) then Some ([], l')
      else match split_at_sign l' with
           | Some (a, b) => Some (c :: a, b)
           | None => None
           end
  end.

(** [/^[^\s@]+@[^\s@]+\.[^\s@]+$/.test (s)]. *)
Definition emailRegex_test (s : string) : bool :=
  match split_at_sign (chars s) with
  | None => false
  | Some (local, domain) =>
      negb (bool_decide (local = [])) && negb (has_space local)
      && negb (bool_decide ("@"%char ∈ domain)) && negb (has_space domain)
      && has_inner_dot false domain
  end.

(** [/^\d{10}$/.test (phone.replace (/\D/g, ''))]. *)
Definition phoneRegex_test (phone : string) : bool :=
  (length (List.filter is_digit (chars phone)) =? 10)%nat.

(** [uri.split ('/').pop ()]: what follows the last slash. *)
Fixpoint last_segment_go (cur : string) (s : string) : string :=
  match s with
  | EmptyString => String.rev cur
  | String c s' =>
      if bool_decide (c = "/"%char) then last_segment_go "" s'
      else last_segment_go (String c cur) s'
  end.

Definition last_segment (uri : string) : string := last_segment_go "" uri.

(** [/\.(\w+)$/.exec (name)]: the word characters after the last dot, when
    there are some and nothing else follows the dot. *)
Fixpoint extension_go (cur : option string) (s : string) : option string :=
  match s with
  | EmptyString =>
      match cur with
      | Some e => if truthy e then Some (String.rev e) else None
      | None => None
      end
  | String c s' =>
      if bool_decide (c = "."%char) then extension_go (Some "") s'
      else if is_word_char c
           then extension_go (e ← cur; Some (String c e)) s'
           else extension_go None s'
  end.

Definition extension (name : string) : option string := extension_go None name.

(** ** Requests *)

Definition bearer (token : string) : string * string :=
  ("Authorization", "Bearer " +:+ token).

Definition json_content : string * string :=
  ("Content-Type", "application/json").

(** A field that [JSON.stringify] drops when it is [undefined]. *)
Definition opt_field (name : string) (o : option string) : list (string * Json) :=
  match o with
  | Some s => [(name, JStr s)]
  | None => []
  end.

(** [s || undefined]. *)
Definition or_undefined (s : string) : option string :=
  if truthy s then Some s else None.

(** A [string | null] that passes the test [if (!x) return]. *)
Definition nonempty (o : option string) : option string :=
  match o with
  | Some s => if truthy s then Some s else None
  | None => None
  end.

(** [if (cond) throw new Error (msg)]. *)
Definition throw_if (cond : bool) (msg : string) : Prog unit :=
  if cond then Throw (ErrorObj msg) else Ret tt.

(** ** hooks/useAuth.tsx

    The [console.log] calls are left out. *)
Module UseAuth.

Record SignUpData : Type := {
  su_firstName : string;
  su_lastName : string;
  su_email : string;
  su_username : string;
  su_phoneNumber : string;
  su_password : string }.

Record UpdateUserData : Type := {
  up_email : string;
  up_first_name : option string;
  up_last_name : option string;
  up_phone_number : option string;
  up_emergency_contact : option string }.

(** The effect run when the provider mounts. *)
Definition loadToken : Prog unit :=
  try_catch_finally
    (storedToken ← await (SecureGet "userToken");
     storedUser ← await (SecureGet "userData");
     match storedToken, storedUser with
     | Some tok, Some usr =>
         if truthy tok && truthy usr
         then exec (SetToken (Some tok));;
              u ← await (JsonParse usr);
              exec (SetUser (Some u))
         else Ret tt
     | _, _ => Ret tt
     end)
    (fun _ => exec (ConsoleError "Failed to load auth token"))
    (exec (SetFlag AuthIsLoading false)).

Definition login_request (username password : string) : Request :=
  {| method := POST; base := LiteralBase; path := "/user/login";
     headers := [json_content];
     body := JsonPayload (JObj [("username", JStr username);
                                ("password", JStr password)]) |}.

Definition me_request (token : string) : Request :=
  {| method := GET; base := LiteralBase; path := "/user/me";
     headers := [bearer token]; body := NoPayload |}.

Definition format_user (userData : BackendUser) : User :=
  {| id := _id userData;
     email := bu_email userData;
     username := bu_username userData;
     firstName := first_name userData;
     lastName := last_name userData;
     phoneNumber := phone_number userData;
     emergencyContact := emergency_contact userData |}.

Definition signIn (username password : string) : Prog unit :=
  try_catch_finally
    (exec (SetFlag AuthIsLoading true);;
     response ← await (Fetch (login_request username password));
     throw_if (negb (ok response)) "Login failed";;
     data ← await (ReadJson KLogin response);
     userResponse ← await (Fetch (me_request (access_token data)));
     throw_if (negb (ok userResponse)) "Failed to get user data";;
     userData ← await (ReadJson KBackendUser userResponse);
     let formattedUser := format_user userData in
     await (SecureSet "userToken" (access_token data));;
     text ← await (JsonStringify formattedUser);
     await (SecureSet "userData" text);;
     exec (SetToken (Some (access_token data)));;
     exec (SetUser (Some formattedUser)))
    (fun _ =>
       exec (AlertShown "Error"
               "Failed to sign in. Please check your credentials.");;
       exec (ConsoleError ""))
    (exec (SetFlag AuthIsLoading false)).

Definition register_request (userData : SignUpData) : Request :=
  {| method := POST; base := LiteralBase; path := "/user/register";
     headers := [json_content];
     body := JsonPayload (JObj [("username", JStr (su_username userData));
                                ("email", JStr (su_email userData));
                                ("password", JStr (su_password userData));
                                ("first_name", JStr (su_firstName userData));
                                ("last_name", JStr (su_lastName userData))]) |}.

Definition signUp (userData : SignUpData) : Prog unit :=
  try_catch_finally
    (exec (SetFlag AuthIsLoading true);;
     response ← await (Fetch (register_request userData));
     if negb (ok response)
     then errorData ← await (ReadJson KErrorDetail response);
          Throw (ErrorObj (or_else errorData "Registration failed"))
     else Ret tt)
    (fun error =>
       exec (ConsoleError "Sign up error:");;
       exec (AlertShown "Error"
               (message_or error "Failed to create account. Please try again."));;
       Throw error)
    (exec (SetFlag AuthIsLoading false)).

Definition update_request (user : User) (token : string)
    (userData : UpdateUserData) : Request :=
  {| method := PUT; base := LiteralBase;
     path := "/user/" +:+ id user +:+ "/update";
     headers := [json_content; bearer token];
     body := JsonPayload
               (JObj ([("email", JStr (up_email userData))]
                      ++ opt_field "first_name" (up_first_name userData)
                      ++ opt_field "last_name" (up_last_name userData)
                      ++ opt_field "phone_number" (up_phone_number userData)
                      ++ opt_field "emergency_contact"
                           (up_emergency_contact userData))) |}.

Definition updateUserInfo (user : option User) (token : option string)
    (userData : UpdateUserData) : Prog unit :=
  match user, token with
  | Some user, Some token =>
      if truthy token
      then
        try_catch_finally
          (exec (SetFlag AuthIsLoading true);;
           response ← await (Fetch (update_request user token userData));
           (if negb (ok response)
            then errorData ← await (ReadJson KErrorDetail response);
                 Throw (ErrorObj (or_else errorData "Update failed"))
            else Ret tt);;
           let updatedUser :=
             {| id := id user;
                email := up_email userData;
                firstName := or_else (up_first_name userData) (firstName user);
                lastName := or_else (up_last_name userData) (lastName user);
                username := username user;
                phoneNumber := up_phone_number userData;
                emergencyContact := up_emergency_contact userData |} in
           text ← await (JsonStringify updatedUser);
           await (SecureSet "userData" text);;
           exec (SetUser (Some updatedUser)))
          (fun error =>
             exec (ConsoleError "Update user error:");;
             Throw error)
          (exec (SetFlag AuthIsLoading false))
      else Throw (ErrorObj "User not authenticated")
  | _, _ => Throw (ErrorObj "User not authenticated")
  end.

Definition signOut : Prog unit :=
  try_catch_finally
    (exec (SetFlag AuthIsLoading true);;
     await (SecureDelete "userToken");;
     await (SecureDelete "userData");;
     exec (SetToken None);;
     exec (SetUser None))
    (fun _ => exec (ConsoleError "Error signing out"))
    (exec (SetFlag AuthIsLoading false)).

End UseAuth.

(** ** app/(auth)/login.tsx *)
Module LoginScreen.

Definition handleLogin (username password : string) : Prog unit :=
  if negb (truthy (trim username)) || negb (truthy (trim password))
  then exec (AlertShown "Error" "Please enter both username and password")
  else
    try_catch_finally
      (exec (SetFlag LoginIsSubmitting true);;
       UseAuth.signIn username password;;
       exec (RouterReplace "/tabs"))
      (fun _ => exec (ConsoleError "Login error:"))
      (exec (SetFlag LoginIsSubmitting false)).

End LoginScreen.

(** ** app/(auth)/signup.tsx *)
Module SignUpScreen.

Definition handleSignUp (form : UseAuth.SignUpData) : Prog unit :=
  if negb (truthy (trim (UseAuth.su_firstName form)))
     || negb (truthy (trim (UseAuth.su_lastName form)))
     || negb (truthy (trim (UseAuth.su_username form)))
     || negb (truthy (trim (UseAuth.su_email form)))
     || negb (truthy (trim (UseAuth.su_password form)))
  then exec (AlertShown "Error" "Please fill in all required fields")
  else if negb (emailRegex_test (UseAuth.su_email form))
  then exec (AlertShown "Error" "Please enter a valid email address")
  else if negb (usernameRegex_test (UseAuth.su_username form))
  then exec (AlertShown "Error"
               "Username can only contain letters, numbers, and underscores")
  else if (code_units (UseAuth.su_password form) <? 6)%nat
  then exec (AlertShown "Error" "Password must be at least 6 characters long")
  else
    try_catch_finally
      (exec (SetFlag SignUpIsSubmitting true);;
       UseAuth.signUp form;;
       exec (AlertShown "Success"
               "Your account has been created! Please login with your credentials."))
      (fun _ => exec (ConsoleError "Sign up error:"))
      (exec (SetFlag SignUpIsSubmitting false)).

(** The OK button of the success alert. *)
Definition onSuccessOk : Prog unit := exec (RouterReplace "/(auth)/login").

End SignUpScreen.

(** ** app/tabs/index.tsx: the home screen *)
Module HomeScreen.

Definition spaces_request (base : Base) (token : string) (user : User) : Request :=
  {| method := GET; base := base; path := "/space/user/" +:+ id user;
     headers := [bearer token]; body := NoPayload |}.

Definition fetchSpaces (token : option string) (user : option User) : Prog unit :=
  match nonempty token, user with
  | Some token, Some user =>
      try_catch_finally
        (exec (SetFlag HomeIsLoading true);;
         response ← await (Fetch (spaces_request LiteralBase token user));
         throw_if (negb (ok response)) "Failed to fetch spaces";;
         data ← await (ReadJson KOpaque response);
         exec (SetData "spaces" data))
        (fun _ =>
           exec (ConsoleError "Error fetching spaces:");;
           exec (AlertShown "Error"
                   "Failed to load your spaces. Please try again later."))
        (exec (SetFlag HomeIsLoading false))
  | _, _ => Ret tt
  end.

End HomeScreen.

(** ** The home screen with the care circle (patients) *)
Module HomePatients.

Definition fetchSpaces (token : option string) (user : option User) : Prog unit :=
  match nonempty token, user with
  | Some token, Some user =>
      try_catch_finally
        (exec (SetFlag HomeIsLoading true);;
         response ← await (Fetch (HomeScreen.spaces_request ConfigBase token user));
         throw_if (negb (ok response)) "Failed to fetch spaces";;
         data ← await (ReadJson KOpaque response);
         exec (SetData "spaces" data))
        (fun _ =>
           exec (ConsoleError "Error fetching spaces:");;
           exec (AlertShown "Error"
                   "Failed to load your spaces. Please try again later."))
        (exec (SetFlag HomeIsLoading false))
  | _, _ => Ret tt
  end.

Definition patients_request (token : string) : Request :=
  {| method := GET; base := ConfigBase; path := "/patient";
     headers := [bearer token]; body := NoPayload |}.

Definition fetchPatients (token : option string) (user : option User) : Prog unit :=
  match nonempty token, user with
  | Some token, Some user =>
      try_catch_finally
        (exec (SetFlag HomeIsLoading true);;
         response ← await (Fetch (patients_request token));
         throw_if (negb (ok response)) "Failed to fetch patients";;
         data ← await (ReadJson KOpaque response);
         exec (SetData "patients" data))
        (fun _ =>
           exec (ConsoleError "Error fetching patients:");;
           exec (AlertShown "Error"
                   "Failed to load your patients. Please try again later."))
        (exec (SetFlag HomeIsLoading false))
  | _, _ => Ret tt
  end.

(** [useEffect (() => { fetchSpaces (); fetchPatients (); }, ...)]. *)
Definition mountEffect (token : option string) (user : option User) : Prog unit :=
  spawn (fetchSpaces token user);;
  spawn (fetchPatients token user).

Definition handleDeletePatient (token : option string) : Prog unit :=
  match nonempty token with
  | None => Ret tt
  | Some _ =>
      exec (AlertShown "Confirm Delete"
              "Are you sure you want to remove this patient?")
  end.

Definition delete_request (token patientId : string) : Request :=
  {| method := DELETE; base := ConfigBase; path := "/patient/" +:+ patientId;
     headers := [bearer token]; body := NoPayload |}.

(** The Delete button of the confirmation, which exists once
    [handleDeletePatient] has passed its test of the token. *)
Definition deleteConfirmed (token : option string) (user : option User)
    (patientId : string) : Prog unit :=
  match nonempty token with
  | None => Ret tt
  | Some tok =>
      try_catch
        (response ← await (Fetch (delete_request tok patientId));
         throw_if (negb (ok response)) "Failed to delete patient";;
         spawn (fetchPatients token user);;
         exec (SetFlag PatientModalVisible false);;
         exec (AlertShown "Success" "Patient removed successfully"))
        (fun _ =>
           exec (ConsoleError "Error deleting patient:");;
           exec (AlertShown "Error"
                   "Failed to delete patient. Please try again later."))
  end.

Record PatientForm : Type := {
  patientName : string;
  patientCondition : string;
  patientAge : string;
  medicalHistory : string }.

Definition patient_payload (form : PatientForm) (age : Json) : Payload :=
  JsonPayload
    (JObj ([("patient_name", JStr (trim (patientName form)));
            ("patient_condition", JStr (trim (patientCondition form)));
            ("patient_age", age)]
           ++ opt_field "medical_history"
                (or_undefined (trim (medicalHistory form))))).

Definition save_request (token : string) (currentPatient : option Patient)
    (payload : Payload) : Request :=
  match currentPatient with
  | Some p =>
      {| method := PUT; base := ConfigBase;
         path := "/patient/" +:+ patient__id p;
         headers := [bearer token; json_content]; body := payload |}
  | None =>
      {| method := POST; base := ConfigBase; path := "/patient";
         headers := [bearer token; json_content]; body := payload |}
  end.

Definition handleSavePatient (token : option string) (user : option User)
    (form : PatientForm) (currentPatient : option Patient) : Prog unit :=
  match nonempty token with
  | Some tok =>
      if truthy (trim (patientName form))
         && truthy (trim (patientCondition form))
         && truthy (trim (patientAge form))
      then
        try_catch
          (age ← await (ParseInt (patientAge form));
           response ←
             await (Fetch (save_request tok currentPatient
                             (patient_payload form age)));
           throw_if (negb (ok response)) "Failed to save patient";;
           exec (SetFlag PatientModalVisible false);;
           spawn (fetchPatients token user);;
           exec (AlertShown "Success"
                   match currentPatient with
                   | Some _ => "Patient updated successfully"
                   | None => "Patient added successfully"
                   end))
          (fun _ =>
             exec (ConsoleError "Error saving patient:");;
             exec (AlertShown "Error"
                     "Failed to save patient. Please try again later."))
      else exec (AlertShown "Error" "Name, condition and age are required")
  | None => exec (AlertShown "Error" "Name, condition and age are required")
  end.

End HomePatients.

(** ** app/space/log.tsx: the space screen *)
Module SpaceDetails.

Definition space_request (token id : string) : Request :=
  {| method := GET; base := ConfigBase; path := "/space/" +:+ id;
     headers := [bearer token]; body := NoPayload |}.

Definition logs_request (token id : string) : Request :=
  {| method := GET; base := ConfigBase; path := "/space/logs/space/" +:+ id;
     headers := [bearer token]; body := NoPayload |}.

Definition fetchSpaceDetails (token : option string) (id : option string) : Prog unit :=
  match nonempty token, nonempty id with
  | Some token, Some id =>
      try_catch_finally
        (exec (SetFlag SpaceLoading true);;
         spaceResponse ← await (Fetch (space_request token id));
         throw_if (negb (ok spaceResponse)) "Failed to fetch space details";;
         spaceData ← await (ReadJson KOpaque spaceResponse);
         exec (SetData "space" spaceData);;
         logsResponse ← await (Fetch (logs_request token id));
         throw_if (negb (ok logsResponse)) "Failed to fetch space logs";;
         logsData ← await (ReadJson KOpaque logsResponse);
         exec (SetData "logs" logsData))
        (fun _ =>
           exec (ConsoleError "Error fetching space details:");;
           exec (AlertShown "Error"
                   "Failed to load space details. Please try again later."))
        (exec (SetFlag SpaceLoading false))
  | _, _ => Ret tt
  end.

End SpaceDetails.

(** ** The space screen with the edit modal *)
Module SpaceScreen.

Definition patients_request (token : string) : Request :=
  {| method := GET; base := ConfigBase; path := "/patient";
     headers := [bearer token]; body := NoPayload |}.

(** [space] is the state captured by the callback, [spaceData] the optional
    argument. *)
Definition fetchPatients (token : option string) (space spaceData : option Space)
    : Prog unit :=
  match nonempty token with
  | None => Ret tt
  | Some token =>
      try_catch
        (allPatientsResponse ← await (Fetch (patients_request token));
         throw_if (negb (ok allPatientsResponse)) "Failed to fetch patients";;
         allPatientsData ← await (ReadJson KPatients allPatientsResponse);
         exec (SetAllPatients allPatientsData);;
         let currentSpace := match spaceData with Some d => Some d | None => space end in
         match currentSpace with
         | Some cs =>
             match patient_ids cs with
             | Some (i :: ids) =>
                 exec (SetSpacePatients
                         (List.filter
                            (fun p : Patient => includes (patient__id p) (i :: ids))
                            allPatientsData))
             | _ => exec (SetSpacePatients [])
             end
         | None => exec (SetSpacePatients [])
         end)
        (fun _ =>
           exec (ConsoleError "Error fetching patients:");;
           exec (AlertShown "Error"
                   "Failed to load patients. Please try again later."))
  end.

Definition fetchSpaceDetails (token : option string) (id : option string)
    (space : option Space) : Prog unit :=
  match nonempty token, nonempty id with
  | Some tok, Some id =>
      try_catch_finally
        (exec (SetFlag SpaceLoading true);;
         spaceResponse ← await (Fetch (SpaceDetails.space_request tok id));
         throw_if (negb (ok spaceResponse)) "Failed to fetch space details";;
         spaceData ← await (ReadJson KSpace spaceResponse);
         exec (SetSpace spaceData id);;
         exec (SetText "spaceName" (space_name spaceData));;
         exec (SetText "spaceDescription" (or_else (description spaceData) ""));;
         exec (SetSelectedPatientIds (default [] (patient_ids spaceData)));;
         logsResponse ← await (Fetch (SpaceDetails.logs_request tok id));
         throw_if (negb (ok logsResponse)) "Failed to fetch space logs";;
         logsData ← await (ReadJson KOpaque logsResponse);
         exec (SetData "logs" logsData);;
         fetchPatients token space (Some spaceData))
        (fun _ =>
           exec (ConsoleError "Error fetching space details:");;
           exec (AlertShown "Error"
                   "Failed to load space details. Please try again later."))
        (exec (SetFlag SpaceLoading false);;
         exec (SetFlag SpaceRefreshing false))
  | _, _ => Ret tt
  end.

Definition mountEffect (token id : option string) (space : option Space) : Prog unit :=
  spawn (fetchSpaceDetails token id space).

Definition onRefresh (token id : option string) (space : option Space) : Prog unit :=
  exec (SetFlag SpaceRefreshing true);;
  spawn (fetchSpaceDetails token id space).

Definition update_request (token id spaceName spaceDescription : string)
    (selectedPatientIds : list string) : Request :=
  {| method := PUT; base := ConfigBase; path := "/space/" +:+ id;
     headers := [bearer token; json_content];
     body := JsonPayload
               (JObj ([("space_name", JStr (trim spaceName))]
                      ++ opt_field "description"
                           (or_undefined (trim spaceDescription))
                      ++ [("patient_ids", JArr (JStr <$> selectedPatientIds))])) |}.

Definition handleSaveSpace (token id : option string) (space : option Space)
    (spaceName spaceDescription : string) (selectedPatientIds : list string)
    : Prog unit :=
  match nonempty token, nonempty id with
  | Some tok, Some i =>
      if truthy (trim spaceName)
      then
        try_catch
          (response ←
             await (Fetch (update_request tok i spaceName spaceDescription
                             selectedPatientIds));
           throw_if (negb (ok response)) "Failed to update space";;
           exec (SetFlag EditModalVisible false);;
           spawn (fetchSpaceDetails token id space);;
           exec (AlertShown "Success" "Space updated successfully"))
          (fun _ =>
             exec (ConsoleError "Error updating space:");;
             exec (AlertShown "Error"
                     "Failed to update space. Please try again later."))
      else exec (AlertShown "Error" "Space name is required")
  | _, _ => exec (AlertShown "Error" "Space name is required")
  end.

Definition handleDeleteSpace (token id : option string) : Prog unit :=
  match nonempty token, nonempty id with
  | Some _, Some _ =>
      exec (AlertShown "Confirm Delete"
              "Are you sure you want to delete this space? This action cannot be undone.")
  | _, _ => exec (AlertShown "Error" "Authorization required")
  end.

Definition delete_request (token id : string) : Request :=
  {| method := DELETE; base := ConfigBase; path := "/space/" +:+ id;
     headers := [bearer token]; body := NoPayload |}.

(** The Delete button of the confirmation, which exists once
    [handleDeleteSpace] has passed its test. *)
Definition deleteConfirmed (token id : option string) : Prog unit :=
  match nonempty token, nonempty id with
  | Some tok, Some i =>
      try_catch
        (response ← await (Fetch (delete_request tok i));
         throw_if (negb (ok response)) "Failed to delete space";;
         exec (SetFlag EditModalVisible false);;
         exec (RouterReplace "/tabs");;
         exec (AlertShown "Success" "Space deleted successfully"))
        (fun _ =>
           exec (ConsoleError "Error deleting space:");;
           exec (AlertShown "Error"
                   "Failed to delete space. Please try again later."))
  | _, _ => Ret tt
  end.

(** The updater passed to [setSelectedPatientIds]. *)
Definition togglePatientSelection (patientId : string)
    (prevSelected : list string) : list string :=
  if includes patientId prevSelected
  then List.filter (fun id => negb (bool_decide (id = patientId))) prevSelected
  else prevSelected ++ [patientId].

End SpaceScreen.

(** ** app/space/log/[logId].tsx: the assessment screen (both versions) *)
Module LogDetail.

Definition log_request (token logId : string) : Request :=
  {| method := GET; base := ConfigBase; path := "/space/logs/" +:+ logId;
     headers := [bearer token]; body := NoPayload |}.

Definition fetchLogDetails (token : option string) (logId : option string) : Prog unit :=
  match nonempty token, nonempty logId with
  | Some token, Some logId =>
      try_catch_finally
        (exec (SetFlag LogLoading true);;
         logResponse ← await (Fetch (log_request token logId));
         throw_if (negb (ok logResponse)) "Failed to fetch log details";;
         logData ← await (ReadJson KOpaque logResponse);
         exec (SetData "log" logData))
        (fun _ =>
           exec (ConsoleError "Error fetching log details:");;
           exec (AlertShown "Error"
                   "Failed to load assessment details. Please try again later."))
        (exec (SetFlag LogLoading false))
  | _, _ => Ret tt
  end.

End LogDetail.

(** ** app/space/add.tsx: the add-space screen with patient selection

    [Keyboard.dismiss ()] is left out. *)
Module AddSpace.

Definition patients_request (token : string) : Request :=
  {| method := GET; base := ConfigBase; path := "/patient";
     headers := [bearer token]; body := NoPayload |}.

Definition fetchPatients (token : option string) : Prog unit :=
  match nonempty token with
  | None => Ret tt
  | Some token =>
      try_catch_finally
        (exec (SetFlag AddLoadingPatients true);;
         allPatientsResponse ← await (Fetch (patients_request token));
         throw_if (negb (ok allPatientsResponse)) "Failed to fetch patients";;
         allPatientsData ← await (ReadJson KOpaque allPatientsResponse);
         exec (SetData "allPatients" allPatientsData))
        (fun _ =>
           exec (ConsoleError "Error fetching patients:");;
           exec (AlertShown "Error"
                   "Failed to load patients. Please try again later."))
        (exec (SetFlag AddLoadingPatients false))
  end.

(** The updater passed to [setSelectedPatientIds]. *)
Definition togglePatientSelection (patientId : string)
    (prevSelected : list string) : list string :=
  if includes patientId prevSelected
  then List.filter (fun id => negb (bool_decide (id = patientId))) prevSelected
  else prevSelected ++ [patientId].

Definition isPatientSelected (selectedPatientIds : list string)
    (patientId : string) : bool :=
  includes patientId selectedPatientIds.

Definition dquote : string := String (ascii_of_nat 34) EmptyString.

Definition created_message (spaceName : string) : string :=
  "Space " +:+ dquote +:+ spaceName +:+ dquote +:+ " created successfully!".

Definition create_request (token spaceName description : string)
    (selectedPatientIds : list string) : Request :=
  {| method := POST; base := ConfigBase; path := "/space/create";
     headers := [json_content; bearer token];
     body := JsonPayload
               (JObj ([("space_name", JStr spaceName)]
                      ++ opt_field "description" (or_undefined (trim description))
                      ++ match selectedPatientIds with
                         | [] => []
                         | _ :: _ =>
                             [("patient_ids", JArr (JStr <$> selectedPatientIds))]
                         end)) |}.

Definition handleSubmit (token : option string) (user : option User)
    (spaceName description : string) (selectedPatientIds : list string)
    : Prog unit :=
  if negb (truthy (trim spaceName))
  then exec (AlertShown "Error" "Please enter a name for your space")
  else
    match nonempty token, user with
    | Some token, Some _ =>
        try_catch_finally
          (exec (SetFlag AddIsLoading true);;
           response ←
             await (Fetch (create_request token spaceName description
                             selectedPatientIds));
           (if negb (ok response)
            then errorData ← await (ReadJson KErrorDetail response);
                 Throw (ErrorObj (or_else errorData "Failed to create space"))
            else Ret tt);;
           _ ← await (ReadJson KOpaque response);
           exec (AlertShown "Success" (created_message spaceName)))
          (fun error =>
             exec (ConsoleError "Error creating space:");;
             exec (AlertShown "Error"
                     (message_or error "Failed to create space. Please try again.")))
          (exec (SetFlag AddIsLoading false))
    | _, _ =>
        exec (AlertShown "Error" "You need to be logged in to create a space")
    end.

(** The OK button of the success alert. *)
Definition onSuccessOk : Prog unit := exec (RouterReplace "/tabs").

End AddSpace.

(** ** The add-space screen without patient selection *)
Module AddSpaceBasic.

Definition create_request (token : string) (user : User)
    (spaceName description : string) : Request :=
  {| method := POST; base := ConfigBase; path := "/space/create";
     headers := [json_content; bearer token];
     body := JsonPayload
               (JObj ([("space_name", JStr spaceName);
                       ("user_id", JStr (id user))]
                      ++ opt_field "description"
                           (or_undefined (trim description)))) |}.

Definition handleSubmit (token : option string) (user : option User)
    (spaceName description : string) : Prog unit :=
  if negb (truthy (trim spaceName))
  then exec (AlertShown "Error" "Please enter a name for your space")
  else
    match nonempty token, user with
    | Some token, Some user =>
        try_catch_finally
          (exec (SetFlag AddIsLoading true);;
           response ←
             await (Fetch (create_request token user spaceName description));
           (if negb (ok response)
            then errorData ← await (ReadJson KErrorDetail response);
                 Throw (ErrorObj (or_else errorData "Failed to create space"))
            else Ret tt);;
           _ ← await (ReadJson KOpaque response);
           exec (AlertShown "Success" (AddSpace.created_message spaceName)))
          (fun error =>
             exec (ConsoleError "Error creating space:");;
             exec (AlertShown "Error"
                     (message_or error "Failed to create space. Please try again.")))
          (exec (SetFlag AddIsLoading false))
    | _, _ =>
        exec (AlertShown "Error" "You need to be logged in to create a space")
    end.

End AddSpaceBasic.

(** ** The capture screen that posts a generated assessment *)
Module CaptureMock.

Record HazardList : Type := {
  high_priority : list (option string);
  medium_priority : list (option string);
  low_priority : list (option string) }.

Record MockAnalysis : Type := {
  score : Z;
  bounding_box_info : Json;
  recommendations : list (option string);
  hazard_list : HazardList }.

Definition possibleHazards_high : list string :=
  ["Exposed wiring"; "Wet floor without sign"; "Blocked emergency exit"].
Definition possibleHazards_medium : list string :=
  ["Cluttered pathway"; "Poor lighting"; "Loose carpeting"; "Uneven flooring"].
Definition possibleHazards_low : list string :=
  ["Dim lighting"; "Furniture placement"; "Cable management needed"].

Definition possibleRecommendations : list string :=
  ["Move furniture to create wider pathways";
   "Secure loose cables along walls";
   "Install better lighting in dark areas";
   "Add grab bars near stairs and in bathrooms";
   "Remove trip hazards from walkways";
   "Use non-slip mats in wet areas";
   "Store frequently used items within easy reach";
   "Consider motion-activated night lights"].

(** [Math.floor (Math.random () * n)]. *)
Definition random_floor (n : Z) : Prog Z :=
  r ← await MathRandom;
  Ret (floor_times r n).

(** [arr[i]]: [None] is [undefined]. *)
Definition at_index (arr : list string) (i : Z) : option string :=
  if (i <? 0)%Z then None else arr !! Z.to_nat i.

(** [[arr[Math.floor (Math.random () * arr.length)]]]. *)
Definition pick_one (arr : list string) : Prog (list (option string)) :=
  i ← random_floor (Z.of_nat (length arr));
  Ret [at_index arr i].

(** The loop [for (let i = 0; i < numRecommendations; i++)], by the number
    of iterations left. *)
Fixpoint pick_recommendations (left : nat) (recommendations : list (option string))
    : Prog (list (option string)) :=
  match left with
  | O => Ret recommendations
  | S left' =>
      i ← random_floor (Z.of_nat (length possibleRecommendations));
      let rec := at_index possibleRecommendations i in
      if bool_decide (rec ∈ recommendations)
      then pick_recommendations left' recommendations
      else pick_recommendations left' (recommendations ++ [rec])
  end.

Definition bounding_box : Json :=
  JObj [("objects",
         JArr [JObj [("type", JStr "furniture");
                     ("confidence", JNum (92 # 100));
                     ("bbox", JArr [JNum 50; JNum 80; JNum 200; JNum 300])]])].

Definition generateMockAnalysis : Prog MockAnalysis :=
  s ← random_floor 40;
  let score := (s + 60)%Z in
  high ← (if (score <? 70)%Z then pick_one possibleHazards_high else Ret []);
  medium ← (if (score <? 85)%Z then pick_one possibleHazards_medium else Ret []);
  low ← pick_one possibleHazards_low;
  n ← random_floor 3;
  let numRecommendations := (n + 2)%Z in
  recommendations ← pick_recommendations (Z.to_nat numRecommendations) [];
  Ret {| score := score;
         bounding_box_info := bounding_box;
         recommendations := recommendations;
         hazard_list := {| high_priority := high;
                           medium_priority := medium;
                           low_priority := low |} |}.

(** A string array that may hold [undefined], as [JSON.stringify] writes
    it. *)
Definition json_strings (l : list (option string)) : Json :=
  JArr ((fun o => match o with Some s => JStr s | None => JNull end) <$> l).

Definition payload (spaceId image : string) (spaceName : option string)
    (mockAnalysis : MockAnalysis) : Json :=
  JObj [("space_id", JStr spaceId);
        ("image_data", JStr image);
        ("score", JNum (inject_Z (score mockAnalysis)));
        ("bounding_box_info", bounding_box_info mockAnalysis);
        ("recommendations", json_strings (recommendations mockAnalysis));
        ("hazard_list",
         JObj [("high_priority",
                json_strings (high_priority (hazard_list mockAnalysis)));
               ("medium_priority",
                json_strings (medium_priority (hazard_list mockAnalysis)));
               ("low_priority",
                json_strings (low_priority (hazard_list mockAnalysis)))]);
        ("comments", JStr ("Safety assessment for " +:+ show_undefined spaceName))].

Definition create_request (token : string) (j : Json) : Request :=
  {| method := POST; base := ConfigBase; path := "/space/logs/create";
     headers := [json_content; bearer token];
     body := JsonPayload j |}.

(** The rest of the [try] block of [uploadImage], once the assessment has
    been generated. *)
Definition submit (image spaceId : string) (spaceName : option string)
    (token : string) (mockAnalysis : MockAnalysis) : Prog unit :=
  response ←
    await (Fetch (create_request token
                    (payload spaceId image spaceName mockAnalysis)));
  throw_if (negb (ok response))
    "Failed to upload image and create assessment";;
  exec (AlertShown "Success" "Safety assessment created successfully!").

Definition uploadImage (image spaceId spaceName token : option string) : Prog unit :=
  match nonempty image, nonempty spaceId, nonempty token with
  | Some image, Some spaceId, Some token =>
      exec (SetFlag CaptureUploading true);;
      try_catch_finally
        (mockAnalysis ← generateMockAnalysis;
         submit image spaceId spaceName token mockAnalysis)
        (fun _ =>
           exec (ConsoleError "Error uploading image:");;
           exec (AlertShown "Error"
                   "Failed to upload image and create assessment. Please try again."))
        (exec (SetFlag CaptureUploading false))
  | _, _, _ =>
      exec (AlertShown "Error" "Missing image data or space information")
  end.

(** The OK button of the success alert. *)
Definition onSuccessOk (spaceId : option string) : Prog unit :=
  exec (RouterReplace ("/space/" +:+ show_undefined spaceId)).

End CaptureMock.

(** ** app/capture: the capture screen that uploads the picture *)
Module CaptureNew.

Definition upload_request (token : option string) (imageUri id : string) : Request :=
  let fileName :=
    let seg := last_segment imageUri in
    if truthy seg then seg else "image.jpg" in
  let type :=
    match extension fileName with
    | Some e => "image/" +:+ e
    | None => "image/jpeg"
    end in
  {| method := POST; base := ConfigBase; path := "/space/logs/upload-image";
     headers := [bearer (show_null token)];
     body := FormPayload [("space_id", FieldPart id);
                          ("image", FilePart imageUri fileName type)] |}.

Definition performUpload (token : option string) (imageUri id : string) : Prog unit :=
  exec (SetFlag CaptureUploading true);;
  try_catch_finally
    (response ← await (Fetch (upload_request token imageUri id));
     if negb (ok response)
     then _ ← try_catch (await (ReadText response))
                (fun _ => Ret "Unknown error");
          exec (ConsoleError "Server error:");;
          Throw (ErrorObj ("Failed to upload image: "
                           +:+ pretty (status response) +:+ " "
                           +:+ statusText response))
     else exec (AlertShown "Success" "Image uploaded successfully!"))
    (fun _ =>
       exec (ConsoleError "Error uploading image:");;
       exec (AlertShown "Error" "Failed to upload image. Please try again."))
    (exec (SetFlag CaptureUploading false)).

Definition uploadImage (imageUri spaceId token : option string) : Prog unit :=
  match nonempty imageUri with
  | None => exec (AlertShown "Error" "Please select or capture an image first")
  | Some uri =>
      match nonempty spaceId with
      | None =>
          exec (AlertShown "Missing Space ID"
                  "No space ID was found. Do you want to continue with a test upload?")
      | Some sid =>
          match nonempty token with
          | None =>
              exec (AlertShown "Error"
                      "You are not authenticated. Please log in again.")
          | Some _ => spawn (performUpload token uri sid)
          end
      end
  end.

(** The Continue Anyway button of the missing-id alert, which exists once
    [uploadImage] has found an image. *)
Definition continueAnyway (imageUri token : option string) : Prog unit :=
  match nonempty imageUri with
  | None => Ret tt
  | Some uri => performUpload token uri "test-space-123"
  end.

(** The OK button of the success alert. *)
Definition onSuccessOk (id : string) : Prog unit :=
  exec (RouterReplace (if truthy id then "/space/" +:+ id else "/")).

End CaptureNew.

(** ** app/tabs/chat: the assistant screen with suggestions and speech

    Message ids ([Math.random ().toString ()]), dates and avatars are left
    out; a message is its author and its text.  [processAgentResponse], a
    chain of regular-expression replacements on the reply, is a parameter. *)
Module Chat.

Definition loadToken : Prog unit :=
  try_catch_finally
    (storedUser ← await (SecureGet "userData");
     match nonempty storedUser with
     | Some text => u ← await (JsonParse text); exec (SetUserData u)
     | None => Ret tt
     end)
    (fun _ => exec (ConsoleError "Failed to load auth token"))
    (exec (SetFlag ChatLoading false)).

(** [token ? `Bearer ${token}` : '']. *)
Definition authorization (token : option string) : string * string :=
  ("Authorization",
   match nonempty token with
   | Some t => "Bearer " +:+ t
   | None => ""
   end).

Definition agent_request (token : option string) (userMessage : string)
    (user_id : option string) (messageHistory : Json) : Request :=
  {| method := POST; base := ConfigBase;
     path := "/simple_agent/simple_conversation";
     headers := [json_content; authorization token];
     body := JsonPayload
               (JObj ([("query", JStr userMessage)]
                      ++ opt_field "user_id" user_id
                      ++ [("history", messageHistory)])) |}.

(** [userData?.id || user?.id]. *)
Definition user_id (userData user : option User) : option string :=
  if truthy_opt (id <$> userData) then id <$> userData else id <$> user.

Definition apology : string :=
  "Sorry, there was an error processing your request. Please try again.".

(** [newMessages[0].text]. *)
Definition first_text (newMessages : list string) : Prog string :=
  match newMessages with
  | m :: _ => Ret m
  | [] => Throw (ErrorObj "Cannot read property 'text' of undefined")
  end.

(** [messageHistory.length] can be read: the history is neither [null] nor
    [undefined]. *)
Definition has_length (messageHistory : Json) : bool :=
  match messageHistory with
  | JNull => false
  | _ => true
  end.

Definition onSend (processAgentResponse : string -> string)
    (token : option string) (user userData : option User)
    (messageHistory : Json) (newMessages : list string) : Prog unit :=
  exec (SetFlag ChatShowSuggestions false);;
  exec (AppendMessages FromUser newMessages);;
  try_catch_finally
    (exec (SetFlag ChatLoading true);;
     userMessage ← first_text newMessages;
     throw_if (negb (has_length messageHistory))
       "Cannot read property 'length' of undefined";;
     response ←
       await (Fetch (agent_request token userMessage (user_id userData user)
                       messageHistory));
     data ← await (ReadJson KAgent response);
     match nonempty (agent_response data) with
     | Some reply =>
         if ok response
         then exec (SetData "messageHistory" (agent_history data));;
              exec (AppendMessages FromAgent [processAgentResponse reply])
         else Ret tt
     | None => Ret tt
     end)
    (fun _ =>
       exec (ConsoleError "Error sending message:");;
       exec (AppendMessages FromAgent [apology]))
    (exec (SetFlag ChatLoading false)).

End Chat.

(** ** The assistant screen, plain version *)
Module ChatBasic.

Definition onSend (token : option string) (userData : option User)
    (messageHistory : Json) (newMessages : list string) : Prog unit :=
  exec (AppendMessages FromUser newMessages);;
  try_catch_finally
    (exec (SetFlag ChatLoading true);;
     userMessage ← Chat.first_text newMessages;
     throw_if (negb (Chat.has_length messageHistory))
       "Cannot read property 'length' of undefined";;
     response ←
       await (Fetch (Chat.agent_request token userMessage (id <$> userData)
                       messageHistory));
     data ← await (ReadJson KAgent response);
     match nonempty (agent_response data) with
     | Some reply =>
         if ok response
         then exec (SetData "messageHistory" (agent_history data));;
              exec (AppendMessages FromAgent [reply])
         else Ret tt
     | None => Ret tt
     end)
    (fun _ =>
       exec (ConsoleError "Error sending message:");;
       exec (AppendMessages FromAgent [Chat.apology]))
    (exec (SetFlag ChatLoading false)).

End ChatBasic.

(** ** The profile screen with the edit form *)
Module Profile.

Record FormData : Type := {
  fd_email : string;
  fd_firstName : string;
  fd_lastName : string;
  fd_phoneNumber : string;
  fd_emergencyContact : string }.

Definition validateEmail (email : string) : bool := emailRegex_test email.

Definition validatePhone (phone : string) : bool :=
  if truthy phone then phoneRegex_test phone else true.

(** The [newErrors] object of [validateForm]. *)
Definition newErrors (formData : FormData) : list (string * string) :=
  (if negb (truthy (fd_email formData))
   then [("email", "Email is required")]
   else if negb (validateEmail (fd_email formData))
        then [("email", "Please enter a valid email")]
        else [])
  ++ (if truthy (fd_phoneNumber formData)
         && negb (validatePhone (fd_phoneNumber formData))
      then [("phoneNumber", "Please enter a valid 10-digit phone number")]
      else [])
  ++ (if truthy (fd_emergencyContact formData)
         && negb (validatePhone (fd_emergencyContact formData))
      then [("emergencyContact",
             "Please enter a valid 10-digit emergency contact")]
      else []).

Definition validateForm (formData : FormData) : Prog bool :=
  exec (SetErrors (newErrors formData));;
  Ret (bool_decide (newErrors formData = [])).

Definition handleSaveProfile (user : option User) (token : option string)
    (formData : FormData) : Prog unit :=
  valid ← validateForm formData;
  if negb valid then Ret tt
  else
    try_catch_finally
      (exec (SetFlag ProfileIsLoading true);;
       UseAuth.updateUserInfo user token
         {| UseAuth.up_email := fd_email formData;
            UseAuth.up_first_name := Some (fd_firstName formData);
            UseAuth.up_last_name := Some (fd_lastName formData);
            UseAuth.up_phone_number := Some (fd_phoneNumber formData);
            UseAuth.up_emergency_contact := Some (fd_emergencyContact formData) |};;
       exec (SetFlag ProfileIsEditing false);;
       exec (AlertShown "Success" "Profile updated successfully"))
      (fun _ =>
         exec (ConsoleError "Error updating profile:");;
         exec (AlertShown "Error" "Failed to update profile. Please try again."))
      (exec (SetFlag ProfileIsLoading false)).

Definition handleSignOut : Prog unit :=
  exec (AlertShown "Sign Out" "Are you sure you want to sign out?").

(** The Sign Out button of the confirmation. *)
Definition signOutConfirmed : Prog unit :=
  UseAuth.signOut;;
  exec (RouterReplace "/(auth)/login").

End Profile.

(** ** The handlers of the application

    Every handler that can send a request or touch the secure store, with the
    values its closure captures beyond the auth context. *)
Inductive Action : Type :=
| LoadToken
| SignIn (username password : string)
| HandleLogin (username password : string)
| HandleSignUp (form : UseAuth.SignUpData)
| HandleSaveProfile (formData : Profile.FormData)
| SignOutConfirmed
| HomeFetchSpaces
| PatientsFetchSpaces
| PatientsFetchPatients
| PatientsMount
| HandleDeletePatient
| DeletePatientConfirmed (patientId : string)
| HandleSavePatient (form : HomePatients.PatientForm) (currentPatient : option Patient)
| FetchSpaceDetails (id : option string)
| EditFetchPatients (space spaceData : option Space)
| EditFetchSpaceDetails (id : option string) (space : option Space)
| EditMount (id : option string) (space : option Space)
| EditRefresh (id : option string) (space : option Space)
| HandleSaveSpace (id : option string) (space : option Space)
    (spaceName spaceDescription : string) (selectedPatientIds : list string)
| HandleDeleteSpace (id : option string)
| DeleteSpaceConfirmed (id : option string)
| FetchLogDetails (logId : option string)
| AddFetchPatients
| AddHandleSubmit (spaceName description : string) (selectedPatientIds : list string)
| BasicHandleSubmit (spaceName description : string)
| MockUploadImage (image spaceId spaceName : option string)
| UploadImage (imageUri spaceId : option string)
| PerformUpload (imageUri id : string)
| ContinueAnyway (imageUri : option string)
| ChatLoadToken
| ChatOnSend (processAgentResponse : string -> string) (userData : option User)
    (messageHistory : Json) (newMessages : list string)
| BasicOnSend (userData : option User) (messageHistory : Json)
    (newMessages : list string).

(** The program a handler runs, in a state whose auth context its closure
    has captured. *)
Definition perform (w : World) (a : Action) : Prog unit :=
  let token := auth_token w in
  let user := auth_user w in
  match a with
  | LoadToken => UseAuth.loadToken
  | SignIn username password => UseAuth.signIn username password
  | HandleLogin username password => LoginScreen.handleLogin username password
  | HandleSignUp form => SignUpScreen.handleSignUp form
  | HandleSaveProfile formData => Profile.handleSaveProfile user token formData
  | SignOutConfirmed => Profile.signOutConfirmed
  | HomeFetchSpaces => HomeScreen.fetchSpaces token user
  | PatientsFetchSpaces => HomePatients.fetchSpaces token user
  | PatientsFetchPatients => HomePatients.fetchPatients token user
  | PatientsMount => HomePatients.mountEffect token user
  | HandleDeletePatient => HomePatients.handleDeletePatient token
  | DeletePatientConfirmed patientId =>
      HomePatients.deleteConfirmed token user patientId
  | HandleSavePatient form currentPatient =>
      HomePatients.handleSavePatient token user form currentPatient
  | FetchSpaceDetails id => SpaceDetails.fetchSpaceDetails token id
  | EditFetchPatients space spaceData =>
      SpaceScreen.fetchPatients token space spaceData
  | EditFetchSpaceDetails id space => SpaceScreen.fetchSpaceDetails token id space
  | EditMount id space => SpaceScreen.mountEffect token id space
  | EditRefresh id space => SpaceScreen.onRefresh token id space
  | HandleSaveSpace id space spaceName spaceDescription selectedPatientIds =>
      SpaceScreen.handleSaveSpace token id space spaceName spaceDescription
        selectedPatientIds
  | HandleDeleteSpace id => SpaceScreen.handleDeleteSpace token id
  | DeleteSpaceConfirmed id => SpaceScreen.deleteConfirmed token id
  | FetchLogDetails logId => LogDetail.fetchLogDetails token logId
  | AddFetchPatients => AddSpace.fetchPatients token
  | AddHandleSubmit spaceName description selectedPatientIds =>
      AddSpace.handleSubmit token user spaceName description selectedPatientIds
  | BasicHandleSubmit spaceName description =>
      AddSpaceBasic.handleSubmit token user spaceName description
  | MockUploadImage image spaceId spaceName =>
      CaptureMock.uploadImage image spaceId spaceName token
  | UploadImage imageUri spaceId => CaptureNew.uploadImage imageUri spaceId token
  | PerformUpload imageUri id => CaptureNew.performUpload token imageUri id
  | ContinueAnyway imageUri => CaptureNew.continueAnyway imageUri token
  | ChatLoadToken => Chat.loadToken
  | ChatOnSend processAgentResponse userData messageHistory newMessages =>
      Chat.onSend processAgentResponse token user userData messageHistory
        newMessages
  | BasicOnSend userData messageHistory newMessages =>
      ChatBasic.onSend token userData messageHistory newMessages
  end.

(** An invocation: the handler runs against the environment from the state
    it was created in. *)
Definition invoke (env : Env) (a : Action) (w : World) : Run (Outcome unit) :=
  run env (perform w a) w.

(** ** Observations on an invocation *)

(** The requests sent, in order. *)
Definition requests (tr : list Event) : list Request :=
  omap (fun e => match e with Requested req => Some req | _ => None end) tr.

(** A backend endpoint: a method on a URL. *)
Definition endpoint (req : Request) : Method * Base * string :=
  (method req, base req, path req).

Fixpoint has_alert (tr : list Event) : bool :=
  match tr with
  | [] => false
  | Ran (AlertShown _ _) :: _ => true
  | _ :: tr' => has_alert tr'
  end.



(** The answers received, each with the events that follow it. *)
Fixpoint responses (tr : list Event)
    : list (Request * Settled Response * list Event) :=
  match tr with
  | [] => []
  | Responded req s :: post => (req, s, post) :: responses post
  | _ :: post => responses post
  end.

(** The largest number of requests in flight at once, [cur] being in flight
    at the start. *)
Fixpoint peak_in_flight (cur : nat) (tr : list Event) : nat :=
  Nat.max cur
    match tr with
    | [] => 0%nat
    | Requested _ :: tr' => peak_in_flight (S cur) tr'
    | Responded _ _ :: tr' => peak_in_flight (pred cur) tr'
    | Ran _ :: tr' => peak_in_flight cur tr'
    end.

(** The requests still in flight at the end. *)
Fixpoint in_flight (cur : nat) (tr : list Event) : nat :=
  match tr with
  | [] => cur
  | Requested _ :: tr' => in_flight (S cur) tr'
  | Responded _ _ :: tr' => in_flight (pred cur) tr'
  | Ran _ :: tr' => in_flight cur tr'
  end.


(** Every request to the path [second] comes after a 2xx answer to a request
    to the path [first]. *)
Definition only_after (first second : string) (tr : list Event) : Prop :=
  forall pre req post,
    tr = (pre ++ Requested req :: post)%list ->
    path req = second ->
    exists req1 r,
      Responded req1 (Fulfilled r) ∈ pre /\ path req1 = first /\ ok r = true.

(** The same, read along the trace: [seen] holds when the answer has come. *)
Fixpoint only_after_from (first second : string) (seen : Prop) (tr : list Event)
    : Prop :=
  match tr with
  | [] => True
  | Requested req :: tr' =>
      (path req = second -> seen) /\ only_after_from first second seen tr'
  | Responded req (Fulfilled r) :: tr' =>
      only_after_from first second (seen \/ (path req = first /\ ok r = true)) tr'
  | _ :: tr' => only_after_from first second seen tr'
  end.

(** The handlers that call an [async] function of the screen and go on
    without awaiting it. *)
Definition detaches (a : Action) : bool :=
  match a with
  | PatientsMount | DeletePatientConfirmed _ | HandleSavePatient _ _
  | EditMount _ _ | EditRefresh _ _ | HandleSaveSpace _ _ _ _ _
  | UploadImage _ _ => true
  | _ => false
  end.

(** [Math.random] returns a double in the range 0 to 1, 1 excluded. *)
Definition valid_random (env : Env) : Prop :=
  forall n,
    is_double (random env n)
    /\ (0 <= random env n)%Q /\ (random env n < 1)%Q.

(** [JSON.parse] undoes [JSON.stringify]. *)
Definition codec (env : Env) : Prop :=
  forall u, parse_user env (stringify_user env u) = Fulfilled u.



(** The two [onSend] handlers of the assistant screens. *)
Definition is_chat (a : Action) : bool :=
  match a with
  | ChatOnSend _ _ _ _ | BasicOnSend _ _ _ => true
  | _ => false
  end.

(** The handlers that write to the secure store. *)
Definition persists (a : Action) : bool :=
  match a with
  | SignIn _ _ | HandleLogin _ _ | HandleSaveProfile _ | SignOutConfirmed => true
  | _ => false
  end.

(** The handlers whose requests go to endpoints that need the session token:
    all but sign-in, sign-up and the assistant. *)
Definition authenticated (a : Action) : bool :=
  match a with
  | SignIn _ _ | HandleLogin _ _ | HandleSignUp _
  | ChatOnSend _ _ _ _ | BasicOnSend _ _ _ => false
  | _ => true
  end.

(** The auth context is given the token [t]. *)
Fixpoint sets_token (t : string) (tr : list Event) : bool :=
  match tr with
  | [] => false
  | Ran (SetToken (Some t')) :: tr' => bool_decide (t' = t) || sets_token t tr'
  | _ :: tr' => sets_token t tr'
  end.

(** The last [n] events. *)
Definition last_events (n : nat) (tr : list Event) : list Event :=
  drop (length tr - n) tr.


(** A state after [n] more calls to the environment. *)
Definition later (n : nat) (w : World) : World :=
  {| auth_user := auth_user w; auth_token := auth_token w;
     flags := flags w; secure_store := secure_store w;
     clock := n + clock w; parked := parked w |}.

(** [p] returns [a] without an event. *)
Definition returns {A : Type} (env : Env) (p : Prog A) (w : World)
    (a : A) (w' : World) : Prop :=
  run env p w = {| outcome := Returned a; final := w'; events := [] |}.

(** What follows a program that has run: a continuation, a [catch] clause, a
    [finally] clause. *)
Definition and_then {A B : Type} (r : Run (Outcome A))
    (k : A -> World -> Run (Outcome B)) : Run (Outcome B) :=
  match outcome r with
  | Returned a => emit (events r) (k a (final r))
  | Threw e => {| outcome := Threw e; final := final r; events := events r |}
  end.

Definition or_catch {A : Type} (r : Run (Outcome A))
    (h : Err -> World -> Run (Outcome A)) : Run (Outcome A) :=
  match outcome r with
  | Returned a => r
  | Threw e => emit (events r) (h e (final r))
  end.

Definition and_finally {A : Type} (r : Run (Outcome A))
    (f : World -> Run (Outcome unit)) : Run (Outcome A) :=
  match r with
  | {| outcome := o; final := w; events := tr |} =>
      match f w with
      | {| outcome := Returned _; final := w'; events := tr' |} =>
          {| outcome := o; final := w'; events := tr ++ tr' |}
      | {| outcome := Threw e; final := w'; events := tr' |} =>
          {| outcome := Threw e; final := w'; events := tr ++ tr' |}
      end
  end.

(** ** Examples of environments and states *)

(** An environment for examples: every request is answered 200 with the
    bodies below, the secure store works, and [Math.random] gives one half. *)
Definition demo_user : BackendUser :=
  {| _id := "u1"; bu_email := "ann@example.org"; bu_username := "ann";
     first_name := "Ann"; last_name := "Lee";
     phone_number := None; emergency_contact := None |}.

Definition demo_body (k : BodyKind) : Settled (body_of k) :=
  match k with
  | KLogin => Fulfilled {| access_token := "tok"; token_type := "bearer" |}
  | KBackendUser => Fulfilled demo_user
  | KErrorDetail => Fulfilled None
  | KOpaque => Fulfilled JNull
  | KAgent => Fulfilled {| agent_response := Some "Mind the rug.";
                           agent_history := JArr [] |}
  | KSpace => Fulfilled {| space__id := "s1"; space_name := "Kitchen";
                           description := None; patient_ids := None |}
  | KPatients => Fulfilled []
  end.

Definition demo_env : Env :=
  {| net := fun _ _ => Fulfilled {| status := 200; statusText := "OK" |};
     body_read := fun k _ _ => demo_body k;
     text_read := fun _ _ => Fulfilled "";
     keychain_fault := fun _ _ => None;
     stringify_user := fun u => "user:" +:+ id u;
     parse_user := fun s =>
       if bool_decide (s = "user:u1")
       then Fulfilled (UseAuth.format_user demo_user)
       else Rejected (ErrorObj "Unexpected token");
     parse_int := fun _ => JNull;
     random := fun _ => 1 # 2 |}.

(** The state of a freshly started application on a device with an empty
    secure store. *)
Definition fresh : World :=
  {| auth_user := None; auth_token := None;
     flags := fun f => bool_decide (f ∈ [AuthIsLoading; SpaceLoading; LogLoading;
                                         ChatLoading; ChatShowSuggestions]);
     secure_store := ∅; clock := 0; parked := [] |}.

(** An environment in which the backend answers every request with status
    500 and a JSON body that has no [response] and no [detail]. *)
Definition failing_body (k : BodyKind) : Settled (body_of k) :=
  match k with
  | KAgent => Fulfilled {| agent_response := None; agent_history := JNull |}
  | k => demo_body k
  end.

Definition failing_env : Env :=
  {| net := fun _ _ =>
       Fulfilled {| status := 500; statusText := "Internal Server Error" |};
     body_read := fun k _ _ => failing_body k;
     text_read := text_read demo_env;
     keychain_fault := keychain_fault demo_env;
     stringify_user := stringify_user demo_env;
     parse_user := parse_user demo_env;
     parse_int := parse_int demo_env;
     random := random demo_env |}.

(** A state in which a user is signed in. *)
Definition signed_in : World :=
  {| auth_user := Some (UseAuth.format_user demo_user); auth_token := Some "tok";
     flags := flags fresh; secure_store := secure_store fresh;
     clock := 0; parked := [] |}.

(** An environment in which the keychain refuses to store the user record. *)
Definition keychain_env : Env :=
  {| net := net demo_env;
     body_read := body_read demo_env;
     text_read := text_read demo_env;
     keychain_fault := fun _ key =>
       if bool_decide (key = "userData")
       then Some (ErrorObj "Could not encrypt the value for SecureStore")
       else None;
     stringify_user := stringify_user demo_env;
     parse_user := parse_user demo_env;
     parse_int := parse_int demo_env;
     random := random demo_env |}.

(** The application started again on the device that [w] leaves behind:
    the components are new, the secure store is the same. *)
Definition restarted (w : World) : World :=
  {| auth_user := None; auth_token := None; flags := flags fresh;
     secure_store := secure_store w; clock := clock w; parked := [] |}.

(** ** Observations for the further properties *)

(** No slash in a string. *)
Fixpoint no_slash (s : string) : bool :=
  match s with
  | EmptyString => true
  | String c s' => negb (bool_decide (c = "/"%char)) && no_slash s'
  end.

(** Only word characters in a string. *)
Fixpoint all_word (s : string) : bool :=
  match s with
  | EmptyString => true
  | String c s' => is_word_char c && all_word s'
  end.

(** No dot in a string. *)
Fixpoint no_dot (s : string) : bool :=
  match s with
  | EmptyString => true
  | String c s' => negb (bool_decide (c = "."%char)) && no_dot s'
  end.


(** The handlers that send a request whether or not the auth context holds
    a token. *)
Definition sends_without_token (a : Action) : bool :=
  match a with
  | SignIn _ _ | HandleLogin _ _ | HandleSignUp _ | PerformUpload _ _
  | ContinueAnyway _ | ChatOnSend _ _ _ _ | BasicOnSend _ _ _ => true
  | _ => false
  end.

(** The commands that change the data a screen or the auth context holds. *)
Definition writes_data (c : Cmd) : bool :=
  match c with
  | SetData _ _ | SetSpace _ _ | SetAllPatients _ | SetSpacePatients _
  | SetToken _ | SetUser _ | SetUserData _ | SetSelectedPatientIds _
  | SetText _ _ | AppendMessages _ _ => true
  | _ => false
  end.

(** A request that was rejected or answered with a status outside 200-299. *)
Definition failed (s : Settled Response) : bool :=
  match s with
  | Fulfilled r => negb (ok r)
  | Rejected _ => true
  end.

Fixpoint writes (tr : list Event) : bool :=
  match tr with
  | [] => false
  | Ran c :: tr' => writes_data c || writes tr'
  | _ :: tr' => writes tr'
  end.

(** Nothing is replaced after a failed request. *)
Fixpoint keeps_data (tr : list Event) : bool :=
  match tr with
  | [] => true
  | Responded _ s :: post => (negb (failed s) || negb (writes post)) && keeps_data post
  | _ :: post => keeps_data post
  end.

Fixpoint shows_success (tr : list Event) : bool :=
  match tr with
  | [] => false
  | Ran (AlertShown title _) :: tr' => bool_decide (title = "Success") || shows_success tr'
  | _ :: tr' => shows_success tr'
  end.

Fixpoint answered_ok (tr : list Event) : bool :=
  match tr with
  | [] => false
  | Responded _ (Fulfilled r) :: tr' => ok r || answered_ok tr'
  | _ :: tr' => answered_ok tr'
  end.

(** The session of the auth context is the one in the secure store. *)
Definition synced (env : Env) (w : World) : Prop :=
  match auth_token w, auth_user w with
  | Some t, Some u =>
      secure_store w !! "userToken" = Some t
      /\ secure_store w !! "userData" = Some (stringify_user env u)
  | None, None => True
  | _, _ => False
  end.

(** The handlers whose requests go to the address written in the source:
    those of the auth hook and the first home screen.  The others use the
    address of the configuration. *)
Definition uses_literal_base (a : Action) : bool :=
  match a with
  | SignIn _ _ | HandleLogin _ _ | HandleSignUp _ | HandleSaveProfile _
  | HomeFetchSpaces => true
  | _ => false
  end.

(** An entry of a generated list that is one of the strings of [arr], not
    [undefined]. *)
Definition taken_from (arr : list string) (o : option string) : Prop :=
  exists s, o = Some s /\ s ∈ arr.

(** The only task in flight waits for the answer to [req]. *)
Definition waits_for (req : Request) (w : World) : Prop :=
  exists t, parked w = [t] /\ waiting_on t = Fetch req.

(** * Proofs *)

(** ** The interpreter and the control operators *)

Lemma emit_nil {A : Type} (r : Run A) : emit [] r = r.
Proof. by destruct r. Qed.

Lemma and_then_emit {A B : Type} es (r : Run (Outcome A))
    (k : A -> World -> Run (Outcome B)) :
  and_then (emit es r) k = emit es (and_then r k).
Proof.
  destruct r as [[a|e] w tr]; unfold and_then; cbn; [|done].
  destruct (k a w); cbn. by rewrite app_assoc.
Qed.

Lemma run_bind {A B : Type} env (p : Prog A) (f : A -> Prog B) w :
  run env (bind p f) w = and_then (run env p w) (fun a => run env (f a)).
Proof.
  revert w. induction p as [A a|A e|A c k IH|A q k IH|A t _ k IH]; intros w; cbn.
  - unfold and_then; cbn. by rewrite emit_nil.
  - done.
  - by rewrite IH, and_then_emit.
  - by rewrite IH, and_then_emit.
  - by rewrite IH, and_then_emit.
Qed.

Lemma or_catch_emit {A : Type} es (r : Run (Outcome A)) h :
  or_catch (emit es r) h = emit es (or_catch r h).
Proof.
  destruct r as [[a|e] w tr]; unfold or_catch; cbn; [done|].
  destruct (h e w); cbn. by rewrite app_assoc.
Qed.

Lemma run_try_catch {A : Type} env (p : Prog A) h w :
  run env (try_catch p h) w = or_catch (run env p w) (fun e => run env (h e)).
Proof.
  revert w. induction p as [A a|A e|A c k IH|A q k IH|A t _ k IH]; intros w; cbn.
  - done.
  - unfold or_catch; cbn. by rewrite emit_nil.
  - by rewrite IH, or_catch_emit.
  - by rewrite IH, or_catch_emit.
  - by rewrite IH, or_catch_emit.
Qed.

Lemma and_finally_emit {A : Type} es (r : Run (Outcome A)) f :
  and_finally (emit es r) f = emit es (and_finally r f).
Proof.
  destruct r as [o w tr]; cbn.
  destruct (f w) as [[[]|e] w' tr']; cbn; by rewrite app_assoc.
Qed.

Lemma run_try_finally {A : Type} env (p : Prog A) f w :
  run env (try_finally p f) w = and_finally (run env p w) (run env f).
Proof.
  revert w. induction p as [A a|A e|A c k IH|A q k IH|A t _ k IH]; intros w; cbn.
  - rewrite run_bind. unfold and_then; cbn.
    destruct (run env f w) as [[[]|e] w' tr]; cbn; by rewrite ?app_nil_r.
  - rewrite run_bind. unfold and_then; cbn.
    destruct (run env f w) as [[[]|e'] w' tr]; cbn; by rewrite ?app_nil_r.
  - by rewrite IH, and_finally_emit.
  - by rewrite IH, and_finally_emit.
  - by rewrite IH, and_finally_emit.
Qed.

Lemma returns_bind {A B : Type} env (p : Prog A) (f : A -> Prog B) w a w' b w'' :
  returns env p w a w' -> returns env (f a) w' b w'' ->
  returns env (bind p f) w b w''.
Proof.
  unfold returns. intros Hp Hf. rewrite run_bind, Hp. unfold and_then; cbn.
  by rewrite Hf.
Qed.

Lemma later_tick n w : later n (tick w) = later (S n) w.
Proof. unfold later, tick; cbn. f_equal. lia. Qed.

Lemma later_0 w : later 0 w = w.
Proof. by destruct w. Qed.

(** ** Patient selection *)

Lemma elem_of_remove (patientId x : string) (l : list string) :
  x ∈ List.filter (fun id => negb (bool_decide (id = patientId))) l
  <-> x ∈ l /\ x <> patientId.
Proof.
  rewrite !list_elem_of_In, filter_In, negb_true_iff, bool_decide_eq_false.
  done.
Qed.

Lemma NoDup_remove (patientId : string) (l : list string) :
  NoDup l -> NoDup (List.filter (fun id => negb (bool_decide (id = patientId))) l).
Proof. rewrite !NoDup_ListNoDup. apply List.NoDup_filter. Qed.

Lemma elem_of_toggle (patientId x : string) (l : list string) :
  x ∈ AddSpace.togglePatientSelection patientId l
  <-> (x = patientId /\ patientId ∉ l) \/ (x <> patientId /\ x ∈ l).
Proof.
  unfold AddSpace.togglePatientSelection, includes. case_bool_decide as Hin.
  - rewrite elem_of_remove. destruct (decide (x = patientId)) as [->|]; tauto.
  - rewrite elem_of_app, list_elem_of_singleton.
    destruct (decide (x = patientId)) as [->|]; tauto.
Qed.

(** C10. [togglePatientSelection] is a membership toggle on a selection
    without duplicates: applied once it flips the membership of the given id,
    applied twice it restores the membership of every id, its result has no
    duplicates, and the membership of the other ids is unchanged. *)
Theorem togglePatientSelection_toggles (patientId : string) (selected : list string) :
  NoDup selected ->
  (patientId ∈ AddSpace.togglePatientSelection patientId selected
   <-> patientId ∉ selected)
  /\ (forall x,
        x ∈ AddSpace.togglePatientSelection patientId
              (AddSpace.togglePatientSelection patientId selected)
        <-> x ∈ selected)
  /\ NoDup (AddSpace.togglePatientSelection patientId selected)
  /\ (forall x, x <> patientId ->
        (x ∈ AddSpace.togglePatientSelection patientId selected <-> x ∈ selected)).
Proof.
  intros Hnd. repeat split.
  - rewrite elem_of_toggle. tauto.
  - rewrite elem_of_toggle. tauto.
  - rewrite !elem_of_toggle. destruct (decide (x = patientId)) as [->|];
      destruct (decide (patientId ∈ selected)); tauto.
  - rewrite !elem_of_toggle. destruct (decide (x = patientId)) as [->|];
      destruct (decide (patientId ∈ selected)); tauto.
  - unfold AddSpace.togglePatientSelection, includes. case_bool_decide as Hin.
    + by apply NoDup_remove.
    + apply NoDup_app. split; [done|]. split; [|apply NoDup_singleton].
      intros x Hx ->%list_elem_of_singleton. done.
  - rewrite elem_of_toggle. tauto.
  - rewrite elem_of_toggle. tauto.
Qed.

Lemma togglePatientSelection_toggles_witness :
  NoDup ["p1"; "p2"]
  /\ AddSpace.togglePatientSelection "p1" ["p1"; "p2"] = ["p2"]
  /\ ("p3" ∈ AddSpace.togglePatientSelection "p3" ["p1"; "p2"] <-> "p3" ∉ ["p1"; "p2"]).
Proof.
  assert (Hnd : NoDup ["p1"; "p2"]).
  { apply (bool_decide_unpack _). vm_compute. exact I. }
  split; [exact Hnd|]. split; [reflexivity|].
  exact (proj1 (togglePatientSelection_toggles "p3" ["p1"; "p2"] Hnd)).
Defined.

(** The space screen with the edit modal has the same updater. *)
Lemma togglePatientSelection_same :
  SpaceScreen.togglePatientSelection = AddSpace.togglePatientSelection.
Proof. reflexivity. Qed.

(** ** The generated assessment *)

Lemma pow2_pos (e : Z) : (0 < 2 ^ e)%Q.
Proof. by apply Qpower_0_lt. Qed.

Lemma pow2_plus (a b : Z) : (2 ^ (a + b) == 2 ^ a * 2 ^ b)%Q.
Proof. by apply Qpower_plus. Qed.

Lemma pow2_inject (n : Z) : (0 <= n)%Z -> (inject_Z (2 ^ n) == 2 ^ n)%Q.
Proof. intros Hn. by rewrite Zpower_Qpower. Qed.

Lemma pow2_le (a b : Z) : (a <= b)%Z -> (2 ^ a <= 2 ^ b)%Q.
Proof. intros Hab. by apply Qpower_le_compat_l. Qed.

Lemma pow2_lt (a b : Z) : (a < b)%Z -> (2 ^ a < 2 ^ b)%Q.
Proof. intros Hab. by apply Qpower_lt_compat_l. Qed.

Lemma binade_spec (x : Q) :
  (0 < x)%Q -> (2 ^ binade x <= x)%Q /\ (x < 2 ^ (binade x + 1))%Q.
Proof.
  intros Hx. destruct x as [p q]. unfold binade. cbn [Qnum Qden].
  assert (Hp : (0 < p)%Z) by (unfold Qlt in Hx; cbn in Hx; lia).
  pose proof (Z.log2_spec p Hp) as [Hp1 Hp2].
  pose proof (Z.log2_spec (Zpos q) eq_refl) as [Hq1 Hq2].
  pose proof (Z.log2_nonneg p) as Hlp.
  pose proof (Z.log2_nonneg (Zpos q)) as Hlq.
  set (lp := Z.log2 p) in *. set (lq := Z.log2 (Zpos q)) in *.
  assert (Hup : (p # q < 2 ^ (lp - lq + 1))%Q).
  { rewrite (Qmake_Qdiv p q). apply Qlt_shift_div_r; [reflexivity|].
    replace (lp - lq + 1)%Z with ((lp + 1) + - lq)%Z by lia.
    rewrite pow2_plus, Qpower_opp.
    apply Qlt_le_trans with (inject_Z (2 ^ (lp + 1)) * / 2 ^ lq * inject_Z (2 ^ lq))%Q.
    - rewrite (pow2_inject lq) by lia.
      rewrite <- Qmult_assoc, (Qmult_comm (/ _)), Qmult_inv_r, Qmult_1_r.
      + rewrite <- Zlt_Qlt. lia.
      + intros H0. pose proof (pow2_pos lq) as H. rewrite H0 in H. by apply Qlt_irrefl in H.
    - rewrite (pow2_inject (lp + 1)) by lia.
      apply Qmult_le_l.
      + apply Qmult_lt_0_compat; [apply pow2_pos|]. apply Qinv_lt_0_compat, pow2_pos.
      + rewrite <- Zle_Qle. lia. }
  assert (Hlow : (2 ^ (lp - lq - 1) <= p # q)%Q).
  { rewrite (Qmake_Qdiv p q). apply Qle_shift_div_l; [reflexivity|].
    replace (lp - lq - 1)%Z with (lp + - (lq + 1))%Z by lia.
    rewrite pow2_plus, Qpower_opp.
    apply Qle_trans with (2 ^ lp * / 2 ^ (lq + 1) * inject_Z (2 ^ (lq + 1)))%Q.
    - apply Qmult_le_l.
      + apply Qmult_lt_0_compat; [apply pow2_pos|]. apply Qinv_lt_0_compat, pow2_pos.
      + rewrite <- Zle_Qle. lia.
    - rewrite (pow2_inject (lq + 1)) by lia.
      rewrite <- Qmult_assoc, (Qmult_comm (/ _)), Qmult_inv_r, Qmult_1_r.
      + rewrite <- pow2_inject by lia. rewrite <- Zle_Qle. lia.
      + intros H0. pose proof (pow2_pos (lq + 1)) as H. rewrite H0 in H.
        by apply Qlt_irrefl in H. }
  destruct (Qle_bool (2 ^ (lp - lq)) (p # q)) eqn:Hcmp.
  - apply Qle_bool_iff in Hcmp. by split.
  - split; [done|].
    replace (lp - lq - 1 + 1)%Z with (lp - lq)%Z by lia.
    apply Qnot_le_lt. intros Hle. apply Qle_bool_iff in Hle. congruence.
Qed.

Lemma round_even_upper (y : Q) : (inject_Z (round_even y) <= y + (1 # 2))%Q.
Proof.
  unfold round_even. pose proof (Qfloor_le y) as Hfloor.
  destruct (Qcompare_spec (y - inject_Z (Qfloor y)) (1 # 2)) as [Heq|Hlt|Hgt].
  - destruct (Z.even (Qfloor y)); [lra|].
    rewrite inject_Z_plus. change (inject_Z 1) with 1%Q. lra.
  - lra.
  - pose proof (Qlt_floor y) as Hnext.
    rewrite inject_Z_plus in *. change (inject_Z 1) with 1%Q in *. lra.
Qed.

Lemma round_even_nonneg (y : Q) : (0 <= y)%Q -> (0 <= round_even y)%Z.
Proof.
  intros Hy. assert (0 <= Qfloor y)%Z.
  { change 0%Z with (Qfloor 0). by apply Qfloor_resp_le. }
  unfold round_even. destruct (_ ?= _)%Q; [destruct (Z.even _)|..]; lia.
Qed.

(** A double below 1 is at most [1 - 2 ^ -53]. *)
Lemma double_below_one (r : Q) :
  is_double r -> (r < 1)%Q -> (r <= 1 - 2 ^ (-53))%Q.
Proof.
  intros (m & e & Hr & Hm & He) Hlt.
  destruct (Z_lt_le_dec e (-53)) as [Hsmall|Hbig].
  - (* below one half *)
    apply Qle_trans with (2 ^ 53 * 2 ^ e)%Q.
    + rewrite Hr. apply Qmult_le_compat_r; [|apply Qlt_le_weak, pow2_pos].
      rewrite <- pow2_inject by lia. rewrite <- Zle_Qle. lia.
    + rewrite <- pow2_plus.
      apply Qle_trans with (2 ^ (-1))%Q; [apply pow2_le; lia|]. by vm_compute.
  - destruct (Z_lt_le_dec e 0) as [Hneg|Hpos].
    + (* r * 2^53 is an integer below 2^53 *)
      assert (Hint : (r * 2 ^ 53 == inject_Z (m * 2 ^ (e + 53)))%Q).
      { rewrite Hr, inject_Z_mult, pow2_inject by lia.
        rewrite <- Qmult_assoc, <- pow2_plus. reflexivity. }
      assert (Hbound : (m * 2 ^ (e + 53) < 2 ^ 53)%Z).
      { rewrite Zlt_Qlt. rewrite <- Hint.
        rewrite (pow2_inject 53) by lia.
        rewrite <- (Qmult_1_l (2 ^ 53)) at 2.
        apply Qmult_lt_compat_r; [apply pow2_pos|done]. }
      assert (Hle : (r * 2 ^ 53 <= (1 - 2 ^ (-53)) * 2 ^ 53)%Q).
      { rewrite Hint.
        assert (((1 - 2 ^ (-53)) * 2 ^ 53 == inject_Z (2 ^ 53 - 1))%Q) as ->
          by (by vm_compute).
        rewrite <- Zle_Qle. lia. }
      apply Qmult_le_r in Hle; [done|apply pow2_pos].
    + (* an integer below 1 *)
      assert (Hint : (r == inject_Z (m * 2 ^ e))%Q).
      { by rewrite Hr, inject_Z_mult, pow2_inject. }
      assert (m * 2 ^ e < 1)%Z.
      { rewrite Zlt_Qlt. by rewrite <- Hint. }
      rewrite Hint. apply Qle_trans with (inject_Z 0); [rewrite <- Zle_Qle; lia|].
      by vm_compute.
Qed.

(** The product of a double below 1 and a positive integer never rounds up
    to the integer. *)
Lemma floor_times_bounds (r : Q) (n : Z) :
  is_double r -> (0 <= r)%Q -> (r < 1)%Q -> (0 < n <= 2 ^ 52)%Z ->
  (0 <= floor_times r n < n)%Z.
Proof.
  intros Hdouble H0 H1 Hn. unfold floor_times, to_double.
  set (x := (r * inject_Z n)%Q).
  assert (Hn0 : (0 < inject_Z n)%Q) by (rewrite <- (Zlt_Qlt 0); lia).
  assert (Hx0 : (0 <= x)%Q) by (apply Qmult_le_0_compat; [done|by apply Qlt_le_weak]).
  destruct (Qcompare_spec x 0) as [Heq|Hlt|Hgt].
  - change (Qfloor 0) with 0%Z. lia.
  - exfalso. by apply (Qlt_not_le _ _ Hlt).
  - unfold to_double_pos.
    destruct (binade_spec x Hgt) as [Hlow Hup].
    set (k := binade x) in *. set (e := Z.max (k - 52) (-1074)).
    set (y := (x / 2 ^ e)%Q).
    assert (Hy0 : (0 <= y)%Q).
    { apply Qle_shift_div_l; [apply pow2_pos|]. by rewrite Qmult_0_l. }
    pose proof (round_even_nonneg y Hy0) as Hz0.
    pose proof (round_even_upper y) as Hz.
    set (z := round_even y) in *.
    assert (Hxn : (x < inject_Z n)%Q).
    { unfold x. rewrite <- (Qmult_1_l (inject_Z n)) at 2.
      by apply Qmult_lt_compat_r. }
    (* the exponent is not positive, since x < n <= 2^52 *)
    assert (Hk : (k <= 52)%Z).
    { destruct (Z_lt_le_dec 52 k) as [Hbig|]; [|done]. exfalso.
      apply (Qlt_irrefl x). apply Qlt_le_trans with (2 ^ k)%Q; [|done].
      apply Qlt_le_trans with (inject_Z n); [done|].
      apply Qle_trans with (2 ^ 52)%Q; [|apply pow2_le; lia].
      rewrite <- pow2_inject by lia. rewrite <- Zle_Qle. lia. }
    assert (He : (e <= 0)%Z) by lia.
    set (N := (n * 2 ^ (- e))%Z).
    assert (HN : (inject_Z n == inject_Z N * 2 ^ e)%Q).
    { unfold N. rewrite inject_Z_mult, pow2_inject by lia.
      rewrite <- Qmult_assoc, <- pow2_plus.
      replace (- e + e)%Z with 0%Z by lia. by rewrite Qmult_1_r. }
    assert (HN52 : (2 ^ 52 < N)%Z).
    { unfold N. destruct (Z_lt_le_dec k 0) as [Hkneg|Hkpos].
      - assert (2 ^ 52 < 2 ^ (- e))%Z by (apply Z.pow_lt_mono_r; lia). nia.
      - assert (Hnk : (2 ^ k < n)%Z).
        { rewrite Zlt_Qlt. rewrite pow2_inject by lia.
          by apply Qle_lt_trans with x. }
        replace e with (k - 52)%Z by lia.
        replace (- (k - 52))%Z with (52 - k)%Z by lia.
        assert (2 ^ 52 = 2 ^ k * 2 ^ (52 - k))%Z as ->.
        { rewrite <- Z.pow_add_r by lia. f_equal. lia. }
        apply Z.mul_lt_mono_pos_r; [apply Z.pow_pos_nonneg; lia|done]. }
    (* y <= (1 - 2^-53) N < N - 1/2 *)
    assert (HyN : (y <= (1 - 2 ^ (-53)) * inject_Z N)%Q).
    { unfold y. apply Qle_shift_div_r; [apply pow2_pos|].
      rewrite <- Qmult_assoc, <- HN. unfold x.
      apply Qmult_le_compat_r; [|by apply Qlt_le_weak].
      by apply double_below_one. }
    assert (Hhalf : ((1 # 2) < 2 ^ (-53) * inject_Z N)%Q).
    { apply Qlt_le_trans with (2 ^ (-53) * inject_Z (2 ^ 52 + 1))%Q; [by vm_compute|].
      apply Qmult_le_l; [apply pow2_pos|]. rewrite <- Zle_Qle. lia. }
    assert (HzN : (z < N)%Z).
    { rewrite Zlt_Qlt. lra. }
    apply Zlt_le_succ in HzN. unfold Z.succ in HzN.
    assert (Hval : (inject_Z z * 2 ^ e <= inject_Z n - 2 ^ e)%Q).
    { rewrite HN.
      assert ((inject_Z N * 2 ^ e - 2 ^ e == (inject_Z N - 1) * 2 ^ e)%Q) as ->
        by ring.
      apply Qmult_le_compat_r; [|apply Qlt_le_weak, pow2_pos].
      rewrite Zle_Qle, inject_Z_plus in HzN. change (inject_Z 1) with 1%Q in HzN.
      lra. }
    pose proof (pow2_pos e) as Hpos.
    split.
    + change 0%Z with (Qfloor 0). apply Qfloor_resp_le.
      apply Qmult_le_0_compat; [|by apply Qlt_le_weak].
      rewrite <- (Zle_Qle 0). done.
    + rewrite Zlt_Qlt. pose proof (Qfloor_le (inject_Z z * 2 ^ e)) as Hfl. lra.
Qed.

Lemma random_floor_returns env n w :
  returns env (CaptureMock.random_floor n) w
    (floor_times (random env (clock w)) n) (tick w).
Proof. reflexivity. Qed.

Lemma pick_one_returns env arr w :
  returns env (CaptureMock.pick_one arr) w
    [CaptureMock.at_index arr
       (floor_times (random env (clock w)) (Z.of_nat (length arr)))]
    (tick w).
Proof. reflexivity. Qed.

(** The loop returns, having added at most one entry per iteration and no
    entry twice. *)
Lemma pick_recommendations_returns env left :
  forall acc w,
  exists l n, returns env (CaptureMock.pick_recommendations left acc) w l (later n w)
    /\ (length acc <= length l <= length acc + left)%nat
    /\ (acc = [] -> (0 < left)%nat -> (1 <= length l)%nat)
    /\ (NoDup acc -> NoDup l).
Proof.
  induction left as [|left IH]; intros acc w.
  - exists acc, 0%nat. rewrite later_0. repeat split; [lia|lia|lia|done].
  - set (rec := CaptureMock.at_index CaptureMock.possibleRecommendations
                  (floor_times (random env (clock w))
                     (Z.of_nat (length CaptureMock.possibleRecommendations)))).
    destruct (decide (rec ∈ acc)) as [Hin|Hout].
    + destruct (IH acc (tick w)) as (l & n & Hrun & Hlen & _ & Hnd).
      rewrite later_tick in Hrun.
      exists l, (S n). split; [|repeat split; [lia|lia| |done]].
      * eapply returns_bind; [apply random_floor_returns|].
        cbv beta zeta. fold rec. rewrite bool_decide_eq_true_2 by done. exact Hrun.
      * intros ->. by apply elem_of_nil in Hin.
    + destruct (IH (acc ++ [rec])%list (tick w)) as (l & n & Hrun & Hlen & _ & Hnd).
      rewrite later_tick in Hrun.
      rewrite length_app in Hlen; cbn in Hlen.
      exists l, (S n). split; [|repeat split; [lia|lia|lia|]].
      * eapply returns_bind; [apply random_floor_returns|].
        cbv beta zeta. fold rec. rewrite bool_decide_eq_false_2 by done. exact Hrun.
      * intros Hacc. apply Hnd, NoDup_app. split; [done|].
        split; [|apply NoDup_singleton].
        intros x Hx ->%list_elem_of_singleton. done.
Qed.

Lemma later_later n m w : later n (later m w) = later (n + m) w.
Proof. unfold later; cbn. f_equal. lia. Qed.

Lemma tick_later w : tick w = later 1 w.
Proof. reflexivity. Qed.

Lemma returns_ret {A : Type} env (a : A) w : returns env (Ret a) w a w.
Proof. reflexivity. Qed.

Ltac returns_step :=
  eapply returns_bind;
  [ first [ apply random_floor_returns | apply pick_one_returns | apply returns_ret ]
  | cbv beta zeta ].

(** What [generateMockAnalysis] returns, whatever [Math.random] gives. *)
Lemma generateMockAnalysis_spec env w :
  exists a n m,
    returns env CaptureMock.generateMockAnalysis w a (later n w)
    /\ CaptureMock.score a = (floor_times (random env (clock w)) 40 + 60)%Z
    /\ length (CaptureMock.high_priority (CaptureMock.hazard_list a))
       = (if (CaptureMock.score a <? 70)%Z then 1 else 0)%nat
    /\ length (CaptureMock.medium_priority (CaptureMock.hazard_list a))
       = (if (CaptureMock.score a <? 85)%Z then 1 else 0)%nat
    /\ length (CaptureMock.low_priority (CaptureMock.hazard_list a)) = 1%nat
    /\ CaptureMock.bounding_box_info a = CaptureMock.bounding_box
    /\ (length (CaptureMock.recommendations a)
        <= Z.to_nat (floor_times (random env m) 3 + 2))%nat
    /\ ((0 < floor_times (random env m) 3 + 2)%Z ->
        (1 <= length (CaptureMock.recommendations a))%nat)
    /\ NoDup (CaptureMock.recommendations a).
Proof.
  unfold CaptureMock.generateMockAnalysis.
  set (score := (floor_times (random env (clock w)) 40 + 60)%Z).
  destruct (score <? 70)%Z eqn:Hhigh, (score <? 85)%Z eqn:Hmed.
  all: match goal with
       | _ : (?s <? 70)%Z = ?h, _ : (?s <? 85)%Z = ?m |- _ =>
           let j := constr:(((if h then 1 else 0) + (if m then 1 else 0) + 2)%nat) in
           let j := eval cbv in j in
           let c := constr:((j + clock w)%nat) in
           destruct (pick_recommendations_returns env
                       (Z.to_nat (floor_times (random env c) 3 + 2)) []
                       (later (S j) w))
             as (l & k & Hl & Hlen & Hpos & Hnd);
           rewrite later_later in Hl;
           eexists _, (k + S j)%nat, c
       end.
  all: split;
    [ returns_step; fold score; rewrite Hhigh;
      returns_step; rewrite Hmed;
      returns_step; returns_step; returns_step;
      eapply returns_bind; [exact Hl | apply returns_ret]
    | cbn; fold score; rewrite ?Hhigh, ?Hmed; cbn in Hlen, Hpos;
      repeat split;
      first [ done | lia | by apply Hnd, NoDup_nil_2
            | intros; apply Hpos; [done|lia] ] ].
Qed.

(** C5. Every call of [generateMockAnalysis] returns; the score is an integer
    from 60 to 99; the high-priority list is non-empty exactly when the score
    is below 70 and then has one element; the medium-priority list is
    non-empty exactly when the score is below 85 and then has one element;
    the low-priority list has one element; there are between 1 and 4
    recommendations, no two of them equal. *)
Theorem generateMockAnalysis_shape (env : Env) (w : World) :
  valid_random env ->
  exists a w',
    run env CaptureMock.generateMockAnalysis w
    = {| outcome := Returned a; final := w'; events := [] |}
    /\ (60 <= CaptureMock.score a <= 99)%Z
    /\ (CaptureMock.high_priority (CaptureMock.hazard_list a) <> []
        <-> (CaptureMock.score a < 70)%Z)
    /\ ((CaptureMock.score a < 70)%Z ->
        length (CaptureMock.high_priority (CaptureMock.hazard_list a)) = 1%nat)
    /\ (CaptureMock.medium_priority (CaptureMock.hazard_list a) <> []
        <-> (CaptureMock.score a < 85)%Z)
    /\ ((CaptureMock.score a < 85)%Z ->
        length (CaptureMock.medium_priority (CaptureMock.hazard_list a)) = 1%nat)
    /\ length (CaptureMock.low_priority (CaptureMock.hazard_list a)) = 1%nat
    /\ (1 <= length (CaptureMock.recommendations a) <= 4)%nat
    /\ NoDup (CaptureMock.recommendations a).
Proof.
  intros Hrandom.
  destruct (generateMockAnalysis_spec env w)
    as (a & n & m & Hrun & Hscore & Hhigh & Hmed & Hlow & _ & Hmax & Hmin & Hnd).
  destruct (Hrandom (clock w)) as (Hsd & Hs0 & Hs1).
  destruct (Hrandom m) as (Hmd & Hm0 & Hm1).
  pose proof (floor_times_bounds _ 40 Hsd Hs0 Hs1 ltac:(lia)) as Hs.
  pose proof (floor_times_bounds _ 3 Hmd Hm0 Hm1 ltac:(lia)) as Hn.
  exists a, (later n w). split; [exact Hrun|].
  split; [lia|].
  destruct (Z.ltb_spec (CaptureMock.score a) 70),
           (Z.ltb_spec (CaptureMock.score a) 85);
    destruct (CaptureMock.high_priority (CaptureMock.hazard_list a)),
             (CaptureMock.medium_priority (CaptureMock.hazard_list a));
    try discriminate Hhigh; try discriminate Hmed.
  all: repeat split; first [ done | lia | intros; lia | intros; done ].
Qed.

Lemma demo_env_random : valid_random demo_env.
Proof.
  intros n. split; [|split; unfold Qle, Qlt; cbn; lia].
  exists 1%Z, (-1)%Z. split; [reflexivity|]. split; [reflexivity|lia].
Qed.

Lemma generateMockAnalysis_shape_witness :
  valid_random demo_env
  /\ exists a w',
       run demo_env CaptureMock.generateMockAnalysis fresh
       = {| outcome := Returned a; final := w'; events := [] |}
       /\ (60 <= CaptureMock.score a <= 99)%Z.
Proof.
  split; [exact demo_env_random|].
  destruct (generateMockAnalysis_shape demo_env fresh demo_env_random)
    as (a & w' & Hrun & Hscore & _).
  exists a, w'. split; [exact Hrun|exact Hscore].
Defined.

(** Case analysis on the membership of an event in a trace that is known. *)
Ltac in_cases H :=
  repeat (apply elem_of_cons in H as [H|H]; [try discriminate H|]);
  try (by apply elem_of_nil in H).

(** An event is in a trace that is known. *)
Ltac in_trace :=
  solve [repeat first [apply list_elem_of_here | apply list_elem_of_further]].

(** ** Case analysis on what the environment answers *)

(** [generateMockAnalysis] takes no part in the control flow of
    [uploadImage]: it returns an assessment and the upload goes on. *)
Lemma uploadImage_run env image spaceId spaceName token w :
  exists a n,
    returns env CaptureMock.generateMockAnalysis
      (apply_cmd (SetFlag CaptureUploading true) w) a
      (later n (apply_cmd (SetFlag CaptureUploading true) w))
    /\ run env (CaptureMock.uploadImage image spaceId spaceName token) w
       = match nonempty image, nonempty spaceId, nonempty token with
         | Some image, Some spaceId, Some token =>
             emit [Ran (SetFlag CaptureUploading true)]
               (run env
                  (try_catch_finally
                     (CaptureMock.submit image spaceId spaceName token a)
                     (fun _ =>
                        exec (ConsoleError "Error uploading image:");;
                        exec (AlertShown "Error"
                                "Failed to upload image and create assessment. Please try again."))
                     (exec (SetFlag CaptureUploading false)))
                  (later n (apply_cmd (SetFlag CaptureUploading true) w)))
         | _, _, _ =>
             run env
               (exec (AlertShown "Error" "Missing image data or space information"))
               w
         end.
Proof.
  destruct (generateMockAnalysis_spec env (apply_cmd (SetFlag CaptureUploading true) w))
    as (a & n & _ & Hgen & _).
  exists a, n. split; [exact Hgen|].
  unfold CaptureMock.uploadImage.
  destruct (nonempty image), (nonempty spaceId), (nonempty token); try reflexivity.
  cbn [mbind Prog_bind bind exec run]. f_equal.
  unfold try_catch_finally, mbind, Prog_bind.
  rewrite !run_try_finally, !run_try_catch, run_bind, Hgen.
  unfold and_then; cbn [outcome final events]. by rewrite emit_nil.
Qed.


Lemma run_ret {A : Type} env (a : A) w :
  run env (Ret a) w = {| outcome := Returned a; final := w; events := [] |}.
Proof. reflexivity. Qed.

Lemma run_throw {A : Type} env e w :
  run env (@Throw A e) w = {| outcome := Threw e; final := w; events := [] |}.
Proof. reflexivity. Qed.

Lemma run_exec env c w :
  run env (exec c) w
  = {| outcome := Returned tt; final := apply_cmd c w; events := [Ran c] |}.
Proof. reflexivity. Qed.

Lemma run_await env q w :
  run env (await q) w
  = match answer env q w with
    | Fulfilled v =>
        {| outcome := Returned v; final := after env q w;
           events := call_events q ++ answer_events q (Fulfilled v) |}
    | Rejected e =>
        {| outcome := Threw e; final := after env q w;
           events := call_events q ++ answer_events q (Rejected e) |}
    end.
Proof.
  unfold await. cbn [run].
  destruct (answer env q w); cbn [run]; unfold emit; cbn [outcome final events];
    by rewrite app_nil_r.
Qed.

Lemma run_spawn env t w :
  run env (spawn t) w
  = {| outcome := Returned tt; final := final (start env t w);
       events := events (start env t w) |}.
Proof. unfold spawn. cbn [run]. unfold emit; cbn [outcome final events]. by rewrite app_nil_r. Qed.

Ltac head_atom x :=
  lazymatch x with
  | negb ?y => head_atom y
  | andb ?y _ => head_atom y
  | orb ?y _ => head_atom y
  | _ => x
  end.

Ltac unfold_handlers H :=
  cbv beta delta [throw_if
    UseAuth.loadToken UseAuth.signIn UseAuth.signUp UseAuth.updateUserInfo UseAuth.signOut
    LoginScreen.handleLogin SignUpScreen.handleSignUp
    Profile.handleSaveProfile Profile.validateForm Profile.signOutConfirmed
    HomeScreen.fetchSpaces HomePatients.fetchSpaces HomePatients.fetchPatients
    HomePatients.mountEffect HomePatients.handleDeletePatient HomePatients.deleteConfirmed
    HomePatients.handleSavePatient SpaceDetails.fetchSpaceDetails
    SpaceScreen.fetchPatients SpaceScreen.fetchSpaceDetails SpaceScreen.mountEffect
    SpaceScreen.onRefresh SpaceScreen.handleSaveSpace SpaceScreen.handleDeleteSpace
    SpaceScreen.deleteConfirmed LogDetail.fetchLogDetails AddSpace.fetchPatients
    AddSpace.handleSubmit AddSpaceBasic.handleSubmit CaptureMock.submit
    CaptureNew.performUpload CaptureNew.uploadImage CaptureNew.continueAnyway
    Chat.loadToken Chat.onSend Chat.first_text ChatBasic.onSend
    try_catch_finally nonempty mbind Prog_bind] in H.

(** One case split on the innermost value the run is stuck on. *)
Ltac case_step H :=
  match type of H with
  | context [match ?x with _ => _ end] =>
      lazymatch x with
      | context [match _ with _ => _ end] => fail
      | _ => idtac
      end;
      let y := head_atom x in destruct y eqn:?
  end.

Ltac exec_step H :=
  first
    [ rewrite run_try_finally in H
    | rewrite run_try_catch in H
    | rewrite run_bind in H
    | rewrite run_exec in H
    | match type of H with
      | context [@run _ ?env (await ?q) ?w] =>
          let E := constr:(run_await env q w) in
          let T := type of E in
          let T' := eval cbn [value body_of] in T in
          rewrite (E : T') in H
      end
    | rewrite run_ret in H
    | rewrite run_throw in H
    | rewrite run_spawn in H
    | progress cbn [and_then or_catch and_finally emit outcome final events app
                    answer faulty after call_events answer_events
                    negb andb orb value body_of
                    apply_cmd tick with_store later
                    auth_user auth_token flags secure_store clock parked] in H
    | progress unfold faulty in H
    | lazymatch type of H with
      | context [start _ _ _] =>
          progress cbn [start is_async try_catch try_finally bind exec spawn
                        await park emit outcome final events app call_events] in H
      end
    | case_step H ].

(** All the runs of an invocation [H : r = invoke env a w]. *)
Ltac run_cases H :=
  unfold invoke, perform in H;
  lazymatch type of H with
  | context [run ?env (CaptureMock.uploadImage ?i ?s ?n ?t) ?w] =>
      let Heq := fresh "Heq" in
      destruct (uploadImage_run env i s n t w) as (? & ? & _ & Heq);
      rewrite Heq in H; clear Heq
  | _ => idtac
  end;
  unfold_handlers H;
  repeat exec_step H.





(** ** No request is repeated *)

Lemma length_append (s1 s2 : string) :
  String.length (s1 +:+ s2) = (String.length s1 + String.length s2)%nat.
Proof.
  induction s1 as [|c s1 IH]; [done|].
  change (S (String.length (s1 +:+ s2))
          = S (String.length s1 + String.length s2))%nat.
  by rewrite IH.
Qed.

Lemma space_path_not_logs_path (id : string) :
  "/space/" +:+ id <> "/space/logs/space/" +:+ id.
Proof.
  intros H. apply (f_equal String.length) in H.
  rewrite !length_append in H. cbn in H. lia.
Qed.

Ltac unfold_requests H :=
  cbv beta delta [endpoint
    UseAuth.login_request UseAuth.me_request UseAuth.register_request
    UseAuth.update_request HomeScreen.spaces_request HomePatients.patients_request
    HomePatients.delete_request HomePatients.save_request
    SpaceDetails.space_request SpaceDetails.logs_request
    SpaceScreen.patients_request SpaceScreen.update_request
    SpaceScreen.delete_request LogDetail.log_request AddSpace.patients_request
    AddSpace.create_request AddSpaceBasic.create_request
    CaptureMock.create_request CaptureNew.upload_request Chat.agent_request] in H;
  cbn [method base path headers body] in H.

Ltac distinct_endpoints :=
  let Hin := fresh "Hin" in
  intros Hin;
  repeat (apply elem_of_cons in Hin as [Hin|Hin]);
  try (by apply elem_of_nil in Hin);
  unfold_requests Hin;
  repeat match type of Hin with
         | context [match ?x with _ => _ end] => destruct x
         end;
  cbn [method base path headers body] in Hin;
  let Hm := fresh "Hm" in
  let Hp := fresh "Hp" in
  pose proof (f_equal (fun e : Method * Base * string => fst (fst e)) Hin) as Hm;
  pose proof (f_equal snd Hin) as Hp;
  cbn [fst snd] in Hm, Hp;
  first
    [ discriminate Hm
    | match type of Hp with
      | "/space/" +:+ ?i = "/space/logs/space/" +:+ ?i =>
          exact (space_path_not_logs_path i Hp)
      | "/space/logs/space/" +:+ ?i = "/space/" +:+ ?i =>
          exact (space_path_not_logs_path i (eq_sym Hp))
      | _ => vm_compute in Hp; discriminate Hp
      end ].

(** C9. No handler sends a request twice: in every invocation, whatever the
    environment answers, each endpoint (a method on a URL) is requested at
    most once. *)
Theorem no_endpoint_requested_twice (env : Env) (a : Action) (w : World) :
  NoDup (endpoint <$> requests (events (invoke env a w))).
Proof.
  remember (invoke env a w) as r eqn:Hr.
  destruct a; run_cases Hr.
  all: subst r; cbn;
    repeat first [ apply NoDup_nil_2 | apply NoDup_cons_2 ];
    distinct_endpoints.
Qed.

(** ** Failed requests *)






Lemma responses_split tr pre req s post :
  tr = (pre ++ Responded req s :: post)%list -> (req, s, post) ∈ responses tr.
Proof.
  intros ->. induction pre as [|e pre IH]; cbn [app responses]; [left|].
  destruct e; try right; exact IH.
Qed.




(** ** Loading flags *)




(** ** The session token *)

Lemma alert_elem_has_alert tr title message :
  Ran (AlertShown title message) ∈ tr -> has_alert tr = true.
Proof.
  induction tr as [|e tr IH]; intros Hin.
  - by apply elem_of_nil in Hin.
  - apply elem_of_cons in Hin as [<-|Hin]; [done|].
    destruct e as [| |[]]; try done; by apply IH.
Qed.

Lemma set_token_elem t tr : Ran (SetToken (Some t)) ∈ tr -> sets_token t tr = true.
Proof.
  induction tr as [|e tr IH]; intros Hin.
  - by apply elem_of_nil in Hin.
  - apply elem_of_cons in Hin as [<-|Hin].
    + cbn. by rewrite bool_decide_eq_true_2.
    + destruct e as [| |[]]; try (by apply IH).
      destruct t0; [|by apply IH]. cbn. rewrite IH by done. by rewrite orb_true_r.
Qed.

Lemma sets_token_elem t tr : sets_token t tr = true -> Ran (SetToken (Some t)) ∈ tr.
Proof.
  induction tr as [|e tr IH]; [done|]. intros H.
  destruct e as [| |c]; try (right; by apply IH).
  destruct c; try (right; by apply IH).
  destruct t0 as [t'|]; [|right; by apply IH].
  cbn in H. apply orb_prop in H as [H|H].
  - apply bool_decide_eq_true in H as ->. left.
  - right. by apply IH.
Qed.

(** C6. Once [signIn] has succeeded with token [t], the token is in the
    secure store under [userToken] and in the auth context; from then on,
    as long as the auth context holds that token, every request of every
    handler other than sign-in, sign-up and the assistant carries the header
    [Authorization: Bearer t]. *)
Theorem token_attached (env : Env) (username password t : string) (w : World) :
  Ran (SetToken (Some t)) ∈ events (invoke env (SignIn username password) w) ->
  secure_store (final (invoke env (SignIn username password) w)) !! "userToken" = Some t
  /\ auth_token (final (invoke env (SignIn username password) w)) = Some t
  /\ forall env' a w' req,
       authenticated a = true ->
       auth_token w' = Some t ->
       req ∈ requests (events (invoke env' a w')) ->
       ("Authorization", "Bearer " +:+ t) ∈ headers req.
Proof.
  intros Hset. apply set_token_elem in Hset.
  split; [|split].
  - remember (invoke env (SignIn username password) w) as r eqn:Hr.
    run_cases Hr.
    all: subst r; cbn [events outcome final sets_token orb] in Hset |- *;
      try discriminate Hset.
    rewrite orb_false_r in Hset. apply bool_decide_eq_true in Hset as ->.
    cbn [secure_store].
    rewrite lookup_insert_ne by done. by rewrite lookup_insert_eq.
  - remember (invoke env (SignIn username password) w) as r eqn:Hr.
    run_cases Hr.
    all: subst r; cbn [events outcome final sets_token orb] in Hset |- *;
      try discriminate Hset.
    rewrite orb_false_r in Hset. by apply bool_decide_eq_true in Hset as ->.
  - clear. intros env a w req Ha Htok.
    remember (invoke env a w) as r eqn:Hr.
    destruct a; try discriminate Ha; clear Ha.
    all: unfold invoke, perform in Hr; rewrite ?Htok in Hr; run_cases Hr.
    all: subst r; cbn [events outcome final requests omap]; intros Hin.
    all: repeat (apply elem_of_cons in Hin as [->|Hin]);
      try (by apply elem_of_nil in Hin).
    all: unfold bearer; cbn.
    all: try match goal with
             | |- context [HomePatients.save_request _ ?c _] =>
                 unfold HomePatients.save_request; destruct c
             end; cbn.
    all: set_solver.
Qed.

Lemma token_attached_witness :
  Ran (SetToken (Some "tok")) ∈ events (invoke demo_env (SignIn "ann" "pw") fresh)
  /\ secure_store (final (invoke demo_env (SignIn "ann" "pw") fresh)) !! "userToken"
     = Some "tok"
  /\ auth_token (final (invoke demo_env (SignIn "ann" "pw") fresh)) = Some "tok".
Proof.
  assert (Hset : Ran (SetToken (Some "tok"))
                 ∈ events (invoke demo_env (SignIn "ann" "pw") fresh)).
  { apply sets_token_elem. reflexivity. }
  split; [exact Hset|].
  destruct (token_attached demo_env "ann" "pw" "tok" fresh Hset) as (Hstore & Htok & _).
  split; [exact Hstore|exact Htok].
Defined.

(** ** Sign-in *)

(** C3, as stated, fails when the keychain refuses the second write: the
    sign-in fails, the auth context stays empty, and the token has been
    written to the secure store. *)
Lemma signIn_leaves_token_behind :
  let login := UseAuth.login_request "ann" "pw" in
  let me := UseAuth.me_request "tok" in
  let r := invoke keychain_env (SignIn "ann" "pw") fresh in
  events r
  = [Ran (SetFlag AuthIsLoading true);
     Requested login;
     Responded login (Fulfilled {| status := 200; statusText := "OK" |});
     Requested me;
     Responded me (Fulfilled {| status := 200; statusText := "OK" |});
     Ran (AlertShown "Error" "Failed to sign in. Please check your credentials.");
     Ran (ConsoleError "");
     Ran (SetFlag AuthIsLoading false)]
  /\ auth_token (final r) = None
  /\ auth_user (final r) = None
  /\ secure_store fresh !! "userToken" = None
  /\ secure_store (final r) !! "userToken" = Some "tok".
Proof. repeat split; reflexivity. Qed.

(** C3, amended. [signIn] never rejects.  [handleLogin], given a user name
    and a password that are not blank, returns too, and its last steps are
    the end of [signIn], the navigation to the tabs and the reset of its
    flag, whether the sign-in succeeded or not.  A sign-in that fails (the
    alert is shown) leaves the user and the token of the auth context as
    they were and does not write the user record; it leaves the secure store
    as it was unless the keychain rejects the write of the user record,
    which comes after the write of the token. *)
Theorem signIn_never_rejects (env : Env) (username password : string) (w : World) :
  outcome (invoke env (SignIn username password) w) = Returned tt
  /\ (truthy (trim username) = true -> truthy (trim password) = true ->
      outcome (invoke env (HandleLogin username password) w) = Returned tt
      /\ last_events 3 (events (invoke env (HandleLogin username password) w))
         = [Ran (SetFlag AuthIsLoading false);
            Ran (RouterReplace "/tabs");
            Ran (SetFlag LoginIsSubmitting false)])
  /\ ((exists title message,
         Ran (AlertShown title message)
         ∈ events (invoke env (SignIn username password) w)) ->
      auth_user (final (invoke env (SignIn username password) w)) = auth_user w
      /\ auth_token (final (invoke env (SignIn username password) w)) = auth_token w
      /\ secure_store (final (invoke env (SignIn username password) w)) !! "userData"
         = secure_store w !! "userData"
      /\ ((forall n, keychain_fault env n "userData" = None) ->
          secure_store (final (invoke env (SignIn username password) w))
          = secure_store w)).
Proof.
  split; [|split].
  - remember (invoke env (SignIn username password) w) as r eqn:Hr.
    run_cases Hr. all: by subst r.
  - intros Hu Hp.
    remember (invoke env (HandleLogin username password) w) as r eqn:Hr.
    unfold invoke, perform, LoginScreen.handleLogin in Hr.
    rewrite Hu, Hp in Hr. cbn [negb orb] in Hr.
    run_cases Hr. all: by subst r.
  - intros (title & message & Halert). apply alert_elem_has_alert in Halert.
    remember (invoke env (SignIn username password) w) as r eqn:Hr.
    run_cases Hr.
    all: subst r; cbn [events outcome final has_alert] in Halert |- *;
      try discriminate Halert.
    all: cbn [auth_user auth_token secure_store].
    all: repeat split; try reflexivity.
    all: try (by rewrite lookup_insert_ne).
    all: intros Hok;
      match goal with
      | H : keychain_fault _ ?n "userData" = Some _ |- _ =>
          rewrite (Hok n) in H; discriminate H
      end.
Qed.

Lemma signIn_never_rejects_witness :
  truthy (trim "ann") = true /\ truthy (trim "pw") = true
  /\ outcome (invoke failing_env (HandleLogin "ann" "pw") fresh) = Returned tt
  /\ last_events 3 (events (invoke failing_env (HandleLogin "ann" "pw") fresh))
     = [Ran (SetFlag AuthIsLoading false);
        Ran (RouterReplace "/tabs");
        Ran (SetFlag LoginIsSubmitting false)].
Proof.
  split; [reflexivity|]. split; [reflexivity|].
  exact (proj1 (proj2 (signIn_never_rejects failing_env "ann" "pw" fresh))
           eq_refl eq_refl).
Defined.

(** ** What outlives the components *)

(** C4, as stated, fails for the user and the session token: a sign-in
    writes them to the secure store, and the provider reads them back when
    the application starts again, without a request. *)
Lemma session_survives_restart :
  let w := restarted (final (invoke demo_env (SignIn "ann" "pw") fresh)) in
  let r := invoke demo_env LoadToken w in
  auth_token w = None
  /\ auth_user w = None
  /\ requests (events r) = []
  /\ auth_token (final r) = Some "tok"
  /\ auth_user (final r) = Some (UseAuth.format_user demo_user).
Proof. repeat split; reflexivity. Qed.

(** C4, amended. Spaces, patients and assessments are held in component
    state only: a handler other than sign-in, the profile form and sign-out
    leaves the secure store as it was, and no handler touches a key other
    than [userToken] and [userData].  The user and the session token outlive
    the components: a sign-in that succeeds with token [t] stores [t] and
    the serialised user under these two keys, and [loadToken], when the
    store holds both and the keychain works, puts them back into the auth
    context. *)
Theorem storage_only_for_session (env : Env) (w : World) :
  (forall a, persists a = false ->
     secure_store (final (invoke env a w)) = secure_store w)
  /\ (forall a key, key <> "userToken" -> key <> "userData" ->
        secure_store (final (invoke env a w)) !! key = secure_store w !! key)
  /\ (forall username password t,
        sets_token t (events (invoke env (SignIn username password) w)) = true ->
        exists usr,
          auth_user (final (invoke env (SignIn username password) w)) = Some usr
          /\ secure_store (final (invoke env (SignIn username password) w))
             = <["userData" := stringify_user env usr]>
                 (<["userToken" := t]> (secure_store w)))
  /\ (forall t s u,
        secure_store w !! "userToken" = Some t ->
        secure_store w !! "userData" = Some s ->
        truthy t = true -> truthy s = true ->
        (forall n key, keychain_fault env n key = None) ->
        parse_user env s = Fulfilled u ->
        auth_token (final (invoke env LoadToken w)) = Some t
        /\ auth_user (final (invoke env LoadToken w)) = Some u).
Proof.
  split; [|split; [|split]].
  - intros a Ha.
    remember (invoke env a w) as r eqn:Hr.
    destruct a; try discriminate Ha; clear Ha; run_cases Hr.
    all: by subst r.
  - intros a key Htoken Hdata.
    remember (invoke env a w) as r eqn:Hr.
    destruct a; run_cases Hr.
    all: subst r; cbn [final secure_store].
    all: rewrite ?lookup_insert_ne, ?lookup_delete_ne by congruence.
    all: reflexivity.
  - intros username password t Hset.
    remember (invoke env (SignIn username password) w) as r eqn:Hr.
    run_cases Hr.
    all: subst r; cbn [events final auth_user secure_store sets_token orb] in Hset |- *;
      try discriminate Hset.
    rewrite orb_false_r in Hset. apply bool_decide_eq_true_1 in Hset. subst t.
    eexists. split; reflexivity.
  - intros t s u Ht Hs Htt Hts Hok Hparse.
    remember (invoke env LoadToken w) as r eqn:Hr.
    run_cases Hr.
    all: subst r; cbn [final auth_user auth_token].
    all: repeat match goal with
           | H : keychain_fault _ _ _ = Some _ |- _ => rewrite Hok in H; discriminate H
           | H : Some _ = Some _ |- _ => injection H as ->
           | H : None = Some _ |- _ => discriminate H
           end.
    all: try congruence.
    all: try (split; congruence).
Qed.

Lemma storage_only_for_session_witness :
  let w := restarted (final (invoke demo_env (SignIn "ann" "pw") fresh)) in
  persists HomeFetchSpaces = false
  /\ secure_store (final (invoke demo_env HomeFetchSpaces w)) = secure_store w
  /\ secure_store w !! "userToken" = Some "tok"
  /\ secure_store w !! "userData" = Some "user:u1"
  /\ auth_token (final (invoke demo_env LoadToken w)) = Some "tok"
  /\ auth_user (final (invoke demo_env LoadToken w))
     = Some (UseAuth.format_user demo_user).
Proof.
  intros w.
  destruct (storage_only_for_session demo_env w) as (Hkeep & _ & _ & Hload).
  split; [reflexivity|]. split; [exact (Hkeep HomeFetchSpaces eq_refl)|].
  split; [reflexivity|]. split; [reflexivity|].
  apply (Hload "tok" "user:u1"); reflexivity.
Defined.

(** ** The order of the requests *)

Lemma only_after_from_sound first second seen tr :
  only_after_from first second seen tr ->
  forall pre req post,
    tr = (pre ++ Requested req :: post)%list ->
    path req = second ->
    seen \/ exists req1 r,
      Responded req1 (Fulfilled r) ∈ pre /\ path req1 = first /\ ok r = true.
Proof.
  revert seen. induction tr as [|e tr IH]; intros seen Htr pre req post Heq Hpath.
  - by destruct pre.
  - destruct pre as [|e' pre]; simpl in Heq; injection Heq as -> ->.
    + left. by apply Htr.
    + assert (Hweak : forall seen' : Prop,
                (seen' \/ exists req1 r,
                   Responded req1 (Fulfilled r) ∈ pre
                   /\ path req1 = first /\ ok r = true) ->
                seen' \/ exists req1 r,
                  Responded req1 (Fulfilled r) ∈ e' :: pre
                  /\ path req1 = first /\ ok r = true).
      { intros seen' [?|(req1 & r & ? & ? & ?)]; [by left|].
        right. exists req1, r. split; [by apply list_elem_of_further|done]. }
      destruct e' as [req0|req0 [r0|e0]|c]; cbn [only_after_from] in Htr.
      * apply Hweak. eapply IH; [apply Htr|done..].
      * destruct (IH _ Htr pre req post eq_refl Hpath)
          as [[?|[? ?]]|?]; [by left| |by apply Hweak; right].
        right. exists req0, r0. split; [apply list_elem_of_here|done].
      * apply Hweak. eapply IH; [apply Htr|done..].
      * apply Hweak. eapply IH; [apply Htr|done..].
Qed.

Lemma only_after_from_only_after first second tr :
  only_after_from first second False tr -> only_after first second tr.
Proof.
  intros Htr pre req post Heq Hpath.
  by destruct (only_after_from_sound _ _ _ _ Htr pre req post Heq Hpath).
Qed.

(** C7, as stated, fails on the home screen: its mount effect calls
    [fetchSpaces] and [fetchPatients] without awaiting either, and the
    second request is sent while the first is in flight. *)
Lemma mount_sends_two_requests_at_once :
  let r := invoke demo_env PatientsMount signed_in in
  events r
  = [Ran (SetFlag HomeIsLoading true);
     Requested (HomeScreen.spaces_request ConfigBase "tok"
                  (UseAuth.format_user demo_user));
     Ran (SetFlag HomeIsLoading true);
     Requested (HomePatients.patients_request "tok")]
  /\ peak_in_flight 0 (events r) = 2%nat.
Proof. split; reflexivity. Qed.

(** C7, amended. In [signIn] the request to [/user/me] is sent only after
    the request to [/user/login] has been answered with a 2xx status, and in
    both versions of [fetchSpaceDetails] the request for the assessments is
    sent only after the request for the space has been answered with a 2xx
    status.  Every handler other than the mount effect of the home screen
    has at most one request in flight at any time, and a handler that awaits
    every [async] function it calls ends with every request answered: none
    is abandoned. *)
Theorem requests_in_sequence (env : Env) (w : World) :
  (forall username password,
     only_after "/user/login" "/user/me"
       (events (invoke env (SignIn username password) w)))
  /\ (forall id,
        only_after ("/space/" +:+ id) ("/space/logs/space/" +:+ id)
          (events (invoke env (FetchSpaceDetails (Some id)) w)))
  /\ (forall id space,
        only_after ("/space/" +:+ id) ("/space/logs/space/" +:+ id)
          (events (invoke env (EditFetchSpaceDetails (Some id) space) w)))
  /\ (forall a, a <> PatientsMount ->
        (peak_in_flight 0 (events (invoke env a w)) <= 1)%nat)
  /\ (forall a, detaches a = false ->
        in_flight 0 (events (invoke env a w)) = 0%nat).
Proof.
  assert (Hall : forall a,
    (a <> PatientsMount -> (peak_in_flight 0 (events (invoke env a w)) <= 1)%nat)
    /\ (detaches a = false -> in_flight 0 (events (invoke env a w)) = 0%nat)).
  { intros a. remember (invoke env a w) as r eqn:Hr.
    destruct a; run_cases Hr.
    all: subst r; cbn [events].
    all: split; [intros Hmount | intros Hdetach].
    all: try discriminate Hdetach; try (by destruct Hmount).
    all: try reflexivity.
    all: cbv [peak_in_flight Nat.max Nat.pred]; lia. }
  split; [|split; [|split; [|split]]].
  - intros username password.
    remember (invoke env (SignIn username password) w) as r eqn:Hr.
    run_cases Hr.
    all: subst r; cbn [events]; apply only_after_from_only_after.
    all: cbn [only_after_from]; repeat split; try discriminate.
    all: intros _; right; by split.
  - intros id.
    remember (invoke env (FetchSpaceDetails (Some id)) w) as r eqn:Hr.
    run_cases Hr.
    all: subst r; cbn [events]; apply only_after_from_only_after.
    all: cbn [only_after_from]; repeat split.
    all: try (by intros ?%space_path_not_logs_path).
    all: intros _; right; by split.
  - intros id space.
    remember (invoke env (EditFetchSpaceDetails (Some id) space) w) as r eqn:Hr.
    run_cases Hr.
    all: subst r; cbn [events]; apply only_after_from_only_after.
    all: cbn [only_after_from]; repeat split.
    all: try (by intros ?%space_path_not_logs_path).
    all: try (intros Hp; apply (f_equal (String.get 1)) in Hp;
              vm_compute in Hp; discriminate Hp).
    all: intros _; right; by split.
  - intros a. apply Hall.
  - intros a. apply Hall.
Qed.

Lemma requests_in_sequence_witness :
  HandleSaveSpace (Some "s1") None "Kitchen" "" [] <> PatientsMount
  /\ (peak_in_flight 0
        (events (invoke demo_env
                   (HandleSaveSpace (Some "s1") None "Kitchen" "" []) signed_in))
      <= 1)%nat
  /\ detaches (SignIn "ann" "pw") = false
  /\ in_flight 0 (events (invoke demo_env (SignIn "ann" "pw") signed_in)) = 0%nat.
Proof.
  destruct (requests_in_sequence demo_env signed_in) as (_ & _ & _ & Hpeak & Hflight).
  split; [discriminate|]. split; [apply Hpeak; discriminate|].
  split; [reflexivity|]. apply Hflight. reflexivity.
Defined.

(** ** Where the assessment is computed *)




(** * Further properties *)

(** ** The file part of an upload *)

Lemma append_cons c s t : String c s +:+ t = String c (s +:+ t).
Proof. reflexivity. Qed.

Lemma append_nil t : "" +:+ t = t.
Proof. reflexivity. Qed.

Lemma truthy_append_r s t : truthy t = true -> truthy (s +:+ t) = true.
Proof. destruct s; [by rewrite append_nil|by rewrite append_cons]. Qed.

Lemma last_segment_go_plain cur s :
  no_slash s = true -> last_segment_go cur s = String.rev_app cur s.
Proof.
  revert cur. induction s as [|c s IH]; intros cur Hs; [reflexivity|].
  cbn [no_slash] in Hs. apply andb_true_iff in Hs as [Hc Hs].
  cbn [last_segment_go]. destruct (bool_decide (c = "/"%char)); [discriminate|].
  by rewrite IH.
Qed.

Lemma last_segment_go_slash cur dir name :
  last_segment_go cur (dir +:+ String "/" name) = last_segment_go "" name.
Proof.
  revert cur. induction dir as [|c dir IH]; intros cur.
  - by rewrite append_nil.
  - rewrite append_cons. cbn [last_segment_go]. by destruct (bool_decide _).
Qed.

Lemma last_segment_after_slash dir name :
  no_slash name = true -> last_segment (dir +:+ "/" +:+ name) = name.
Proof.
  intros Hname. unfold last_segment. rewrite append_cons, append_nil.
  rewrite last_segment_go_slash. by rewrite last_segment_go_plain.
Qed.

Lemma is_word_char_not_dot c : is_word_char c = true -> c <> "."%char.
Proof. by intros Hc ->. Qed.

Lemma extension_go_word cur ext :
  all_word ext = true ->
  extension_go (Some cur) ext
  = if truthy cur || truthy ext then Some (String.rev_app cur ext) else None.
Proof.
  revert cur. induction ext as [|c ext IH]; intros cur Hext.
  - cbn [extension_go truthy orb]. rewrite orb_false_r.
    by destruct (truthy cur).
  - cbn [all_word] in Hext. apply andb_true_iff in Hext as [Hc Hext].
    cbn [extension_go]. rewrite bool_decide_eq_false_2 by by apply is_word_char_not_dot.
    rewrite Hc. cbn [mbind option_bind]. rewrite IH by done.
    cbn [truthy orb]. by rewrite orb_true_r.
Qed.

Lemma extension_go_dot cur base ext :
  all_word ext = true ->
  extension_go cur (base +:+ String "." ext)
  = if truthy ext then Some ext else None.
Proof.
  intros Hext. revert cur. induction base as [|c base IH]; intros cur.
  - rewrite append_nil. cbn [extension_go]. rewrite bool_decide_eq_true_2 by done.
    by rewrite extension_go_word.
  - rewrite append_cons. cbn [extension_go].
    destruct (bool_decide (c = "."%char)); [apply IH|].
    destruct (is_word_char c); apply IH.
Qed.

Lemma extension_go_no_dot name :
  no_dot name = true -> extension_go None name = None.
Proof.
  induction name as [|c name IH]; intros Hname; [reflexivity|].
  cbn [no_dot] in Hname. apply andb_true_iff in Hname as [Hc Hname].
  cbn [extension_go]. destruct (bool_decide (c = "."%char)); [discriminate|].
  destruct (is_word_char c); by apply IH.
Qed.

(** X1. The file part of an upload.  When the URI of the picture ends in a
    slash-free name with an extension of word characters, the file is sent
    under that name with the type [image/] followed by the extension; a
    name without a dot is sent as [image/jpeg]; a URI that ends in a slash
    is sent as [image.jpg] with the type [image/jpg]. *)
Theorem upload_file_part (token : option string) (dir base ext name id : string) :
  (no_slash base = true -> all_word ext = true -> truthy ext = true ->
   body (CaptureNew.upload_request token (dir +:+ "/" +:+ base +:+ "." +:+ ext) id)
   = FormPayload
       [("space_id", FieldPart id);
        ("image", FilePart (dir +:+ "/" +:+ base +:+ "." +:+ ext)
                    (base +:+ "." +:+ ext) ("image/" +:+ ext))])
  /\ (no_slash name = true -> no_dot name = true -> truthy name = true ->
      body (CaptureNew.upload_request token (dir +:+ "/" +:+ name) id)
      = FormPayload
          [("space_id", FieldPart id);
           ("image", FilePart (dir +:+ "/" +:+ name) name "image/jpeg")])
  /\ body (CaptureNew.upload_request token (dir +:+ "/") id)
     = FormPayload
         [("space_id", FieldPart id);
          ("image", FilePart (dir +:+ "/") "image.jpg" "image/jpg")].
Proof.
  split; [|split].
  - intros Hbase Hext Htruthy.
    assert (Hname : no_slash (base +:+ "." +:+ ext) = true).
    { clear -Hbase Hext. induction base as [|c base IH].
      - rewrite append_nil, append_cons, append_nil. cbn [no_slash].
        rewrite bool_decide_eq_false_2 by done. cbn [negb andb].
        induction ext as [|c ext IH]; [done|].
        cbn [all_word] in Hext. apply andb_true_iff in Hext as [Hc Hext].
        cbn [no_slash]. rewrite IH by done.
        rewrite bool_decide_eq_false_2; [done|]. by intros ->.
      - cbn [no_slash] in Hbase. apply andb_true_iff in Hbase as [Hc Hbase].
        rewrite append_cons. cbn [no_slash]. by rewrite Hc, IH. }
    unfold CaptureNew.upload_request. cbn [body].
    rewrite last_segment_after_slash by done.
    rewrite truthy_append_r by by rewrite append_cons.
    unfold extension. rewrite (append_cons "." "" ext), append_nil.
    rewrite extension_go_dot by done. by rewrite Htruthy.
  - intros Hslash Hdot Htruthy.
    unfold CaptureNew.upload_request. cbn [body].
    rewrite last_segment_after_slash by done. rewrite Htruthy.
    unfold extension. by rewrite extension_go_no_dot.
  - unfold CaptureNew.upload_request. cbn [body].
    unfold last_segment. rewrite (last_segment_go_slash "" dir "").
    reflexivity.
Qed.

Lemma upload_file_part_witness :
  no_slash "photo" = true /\ all_word "png" = true /\ truthy "png" = true
  /\ body (CaptureNew.upload_request (Some "tok")
             ("file:///cache" +:+ "/" +:+ "photo" +:+ "." +:+ "png") "s1")
     = FormPayload
         [("space_id", FieldPart "s1");
          ("image", FilePart ("file:///cache" +:+ "/" +:+ "photo" +:+ "." +:+ "png")
                      ("photo" +:+ "." +:+ "png") ("image/" +:+ "png"))]
  /\ no_slash "photo" = true /\ no_dot "photo" = true /\ truthy "photo" = true
  /\ body (CaptureNew.upload_request (Some "tok") ("file:///cache" +:+ "/" +:+ "photo") "s1")
     = FormPayload
         [("space_id", FieldPart "s1");
          ("image", FilePart ("file:///cache" +:+ "/" +:+ "photo") "photo" "image/jpeg")].
Proof.
  destruct (upload_file_part (Some "tok") "file:///cache" "photo" "png" "photo" "s1")
    as (Hext & Hplain & _).
  split; [reflexivity|]. split; [reflexivity|]. split; [reflexivity|].
  split; [exact (Hext eq_refl eq_refl eq_refl)|].
  split; [reflexivity|]. split; [reflexivity|]. split; [reflexivity|].
  exact (Hplain eq_refl eq_refl eq_refl).
Defined.

(** ** The regular expressions of the forms *)

Lemma split_at_sign_Some l a b :
  split_at_sign l = Some (a, b) ->
  l = (a ++ "@"%char :: b)%list /\ "@"%char ∉ a.
Proof.
  revert a. induction l as [|c l IH]; intros a Hl; [discriminate|].
  cbn [split_at_sign] in Hl. destruct (bool_decide_reflect (c = "@"%char)) as [->|Hc].
  - injection Hl as <- <-. split; [done|]. apply not_elem_of_nil.
  - destruct (split_at_sign l) as [[a' b']|]; [|discriminate].
    injection Hl as <- <-. destruct (IH a' eq_refl) as [-> Ha'].
    split; [done|]. by apply not_elem_of_cons.
Qed.

Lemma split_at_sign_app a b :
  "@"%char ∉ a -> split_at_sign (a ++ "@"%char :: b)%list = Some (a, b).
Proof.
  induction a as [|c a IH]; intros Ha.
  - cbn [app split_at_sign]. by rewrite bool_decide_eq_true_2.
  - apply not_elem_of_cons in Ha as [Hc Ha].
    cbn [app split_at_sign]. rewrite bool_decide_eq_false_2 by done.
    by rewrite IH.
Qed.

Lemma has_inner_dot_spec seen l :
  has_inner_dot seen l = true <->
  exists name tld,
    l = (name ++ "."%char :: tld)%list /\ (seen = true \/ name <> []) /\ tld <> [].
Proof.
  revert seen. induction l as [|c l IH]; intros seen.
  - split; [discriminate|]. intros (name & tld & Hl & _). by destruct name.
  - cbn [has_inner_dot]. rewrite orb_true_iff, !andb_true_iff, IH. split.
    + intros [[[-> Hc] Hl]|(name & tld & -> & _ & Htld)].
      * apply bool_decide_eq_true_1 in Hc as ->. exists [], l.
        split; [done|]. split; [by left|].
        intros ->. by rewrite bool_decide_eq_true_2 in Hl.
      * exists (c :: name), tld. split; [done|]. split; [by right|done].
    + intros (name & tld & Hl & Hseen & Htld). destruct name as [|c' name].
      * left. injection Hl as -> ->. destruct Hseen as [->|?]; [|done].
        rewrite bool_decide_eq_true_2 by done.
        by rewrite bool_decide_eq_false_2.
      * right. injection Hl as -> ->. exists name, tld. split; [done|].
        split; [by left|done].
Qed.

(** An ASCII character that is not white space is no part of a white-space
    character. *)
Ltac no_space_byte :=
  unfold is_space2, is_space3; cbv zeta;
  repeat match goal with
         | |- context [(?a =? ?b)%nat] => destruct (Nat.eqb_spec a b); try lia
         | |- context [(?a <=? ?b)%nat] => destruct (Nat.leb_spec a b); try lia
         end;
  reflexivity.

Lemma is_space2_ascii_l c c2 : (nat_of_ascii c < 128)%nat -> is_space2 c c2 = false.
Proof. intros Hc. no_space_byte. Qed.

Lemma is_space2_ascii_r c1 c : (nat_of_ascii c < 128)%nat -> is_space2 c1 c = false.
Proof. intros Hc. no_space_byte. Qed.

Lemma is_space3_ascii_1 c c2 c3 : (nat_of_ascii c < 128)%nat -> is_space3 c c2 c3 = false.
Proof. intros Hc. no_space_byte. Qed.

Lemma is_space3_ascii_2 c1 c c3 : (nat_of_ascii c < 128)%nat -> is_space3 c1 c c3 = false.
Proof. intros Hc. no_space_byte. Qed.

Lemma is_space3_ascii_3 c1 c2 c : (nat_of_ascii c < 128)%nat -> is_space3 c1 c2 c = false.
Proof. intros Hc. no_space_byte. Qed.

Lemma has_space_app (c : ascii) (a b : list ascii) :
  (nat_of_ascii c < 128)%nat -> is_space1 c = false ->
  has_space (a ++ c :: b) = has_space a || has_space b.
Proof.
  intros Hc Hspace. induction a as [|x a IH].
  - cbn [app has_space orb].
    assert (starts_space (c :: b) = false) as ->; [|done].
    destruct b as [|c2 [|c3 b]]; cbn [starts_space]; rewrite Hspace;
      by rewrite ?(is_space2_ascii_l c), ?(is_space3_ascii_1 c).
  - cbn [app has_space]. rewrite IH, orb_assoc. f_equal. f_equal.
    destruct a as [|y [|z a]]; cbn [app]; [| |reflexivity].
    + destruct b; cbn [starts_space];
        by rewrite (is_space2_ascii_r x c), ?(is_space3_ascii_2 x c), ?orb_false_r.
    + cbn [starts_space]. by rewrite (is_space3_ascii_3 x y c).
Qed.

(** X2. [emailRegex.test] accepts exactly the strings made of a local part, an
    at sign, a name, a dot and an ending, none of the three empty, with no
    other at sign and no white space, that of Unicode included. *)
Theorem emailRegex_test_spec (s : string) :
  emailRegex_test s = true <->
  exists local name tld,
    chars s = (local ++ "@"%char :: name ++ "."%char :: tld)%list
    /\ local <> [] /\ name <> [] /\ tld <> []
    /\ ("@"%char ∉ (local ++ name ++ tld)%list)
    /\ has_space (chars s) = false.
Proof.
  unfold emailRegex_test. split.
  - destruct (split_at_sign (chars s)) as [[local domain]|] eqn:Hsplit; [|discriminate].
    apply split_at_sign_Some in Hsplit as [Hchars Hlocal]. rewrite !andb_true_iff.
    intros [[[[Hne Hl] Hat] Hd] Hdot].
    apply negb_true_iff in Hl, Hd. apply negb_true_iff in Hat.
    apply bool_decide_eq_false_1 in Hat.
    apply has_inner_dot_spec in Hdot as (name & tld & -> & [?|Hname] & Htld); [done|].
    exists local, name, tld. split; [done|].
    split; [intros ->; by rewrite bool_decide_eq_true_2 in Hne|].
    split; [done|]. split; [done|]. split.
    + rewrite !not_elem_of_app. rewrite not_elem_of_app, not_elem_of_cons in Hat.
      tauto.
    + rewrite Hchars, (has_space_app "@"%char) by first [reflexivity | vm_compute; lia].
      by rewrite Hl, Hd.
  - intros (local & name & tld & Hchars & Hlocal & Hname & Htld & Hat & Hspace).
    rewrite !not_elem_of_app in Hat. destruct Hat as (Hl & Hn & Ht).
    rewrite Hchars in Hspace |- *.
    rewrite (has_space_app "@"%char) in Hspace by first [reflexivity | vm_compute; lia].
    apply orb_false_iff in Hspace as [Hsl Hsd].
    rewrite split_at_sign_app by done.
    rewrite bool_decide_eq_false_2 by done. rewrite Hsl, Hsd.
    rewrite bool_decide_eq_false_2.
    + cbn [negb andb]. apply has_inner_dot_spec. exists name, tld.
      split; [done|]. split; [by right|done].
    + rewrite not_elem_of_app, not_elem_of_cons. done.
Qed.

Lemma chars_append s t : chars (s +:+ t) = (chars s ++ chars t)%list.
Proof.
  induction s as [|c s IH]; [reflexivity|].
  change (String c s +:+ t) with (String c (s +:+ t)).
  unfold chars in *. cbn [list_ascii_of_string app]. by rewrite IH.
Qed.

(** X3. [validatePhone] ignores the characters that are not digits: in a phone
    number that is not empty, a character that is not a digit can be added
    or removed anywhere and the verdict does not change; the verdict is
    whether ten digits are left. *)
Theorem validatePhone_ignores_formatting (before after : string) (c : ascii) :
  is_digit c = false ->
  truthy (before +:+ after) = true ->
  Profile.validatePhone (before +:+ String c after)
  = Profile.validatePhone (before +:+ after)
  /\ (Profile.validatePhone (before +:+ after) = true
      <-> length (List.filter is_digit (chars (before +:+ after))) = 10%nat).
Proof.
  intros Hc Htruthy. unfold Profile.validatePhone, phoneRegex_test.
  rewrite Htruthy.
  replace (truthy (before +:+ String c after)) with true
    by (destruct before; reflexivity).
  rewrite !chars_append, !List.filter_app.
  unfold chars at 2. cbn [list_ascii_of_string List.filter]. rewrite Hc.
  split; [reflexivity|]. apply Nat.eqb_eq.
Qed.

Lemma validatePhone_ignores_formatting_witness :
  is_digit "-"%char = false
  /\ truthy ("555" +:+ "1234567") = true
  /\ Profile.validatePhone ("555" +:+ String "-"%char "1234567")
     = Profile.validatePhone ("555" +:+ "1234567").
Proof.
  split; [reflexivity|]. split; [reflexivity|].
  exact (proj1 (validatePhone_ignores_formatting "555" "1234567" "-"%char
                  eq_refl eq_refl)).
Defined.

(** ** The forms *)



(** X5. [handleSignUp] sends the registration exactly when the five required
    fields are not blank, the e-mail address and the user name match their
    expressions and the password has a [length] of six or more, counted in
    UTF-16 code units; it then sends one request.  Otherwise it sends
    nothing.  Blank is what [trim] leaves empty: the white space of
    JavaScript, the no-break space included. *)
Theorem handleSignUp_validates (env : Env) (form : UseAuth.SignUpData) (w : World) :
  requests (events (invoke env (HandleSignUp form) w))
  = if truthy (trim (UseAuth.su_firstName form))
       && truthy (trim (UseAuth.su_lastName form))
       && truthy (trim (UseAuth.su_username form))
       && truthy (trim (UseAuth.su_email form))
       && truthy (trim (UseAuth.su_password form))
       && emailRegex_test (UseAuth.su_email form)
       && usernameRegex_test (UseAuth.su_username form)
       && (6 <=? code_units (UseAuth.su_password form))%nat
    then [UseAuth.register_request form]
    else [].
Proof.
  remember (invoke env (HandleSignUp form) w) as r eqn:Hr.
  unfold invoke, perform, SignUpScreen.handleSignUp in Hr.
  destruct (truthy (trim (UseAuth.su_firstName form)));
    [|by subst r].
  destruct (truthy (trim (UseAuth.su_lastName form))); [|by subst r].
  destruct (truthy (trim (UseAuth.su_username form))); [|by subst r].
  destruct (truthy (trim (UseAuth.su_email form))); [|by subst r].
  destruct (truthy (trim (UseAuth.su_password form))); [|by subst r].
  destruct (emailRegex_test (UseAuth.su_email form)); [|by subst r].
  destruct (usernameRegex_test (UseAuth.su_username form)); [|by subst r].
  cbn [negb orb andb] in Hr |- *.
  rewrite Nat.leb_antisym.
  destruct (code_units (UseAuth.su_password form) <? 6)%nat; [by subst r|].
  cbn [negb].
  run_cases Hr. all: by subst r.
Qed.

(** X6. [validateForm] accepts a profile exactly when the e-mail address matches
    its expression and each of the two phone numbers is empty or has ten
    digits; [handleSaveProfile] sends nothing for a profile that is not
    accepted. *)
Theorem validateForm_accepts (env : Env) (formData : Profile.FormData) (w : World) :
  (Profile.newErrors formData = []
   <-> Profile.validateEmail (Profile.fd_email formData) = true
       /\ Profile.validatePhone (Profile.fd_phoneNumber formData) = true
       /\ Profile.validatePhone (Profile.fd_emergencyContact formData) = true)
  /\ (Profile.newErrors formData <> [] ->
      invoke env (HandleSaveProfile formData) w
      = {| outcome := Returned tt; final := w;
           events := [Ran (SetErrors (Profile.newErrors formData))] |}).
Proof.
  split.
  - unfold Profile.newErrors, Profile.validateEmail, Profile.validatePhone.
    destruct (Profile.fd_email formData) as [|c email] eqn:Hemail.
    { cbn. split; [done|]. by intros [? _]. }
    rewrite <- Hemail. replace (truthy (Profile.fd_email formData)) with true
      by by rewrite Hemail.
    cbn [negb].
    destruct (emailRegex_test (Profile.fd_email formData));
      destruct (truthy (Profile.fd_phoneNumber formData));
      destruct (phoneRegex_test (Profile.fd_phoneNumber formData));
      destruct (truthy (Profile.fd_emergencyContact formData));
      destruct (phoneRegex_test (Profile.fd_emergencyContact formData));
      cbn; intuition congruence.
  - intros Herrors. unfold invoke, perform, Profile.handleSaveProfile.
    unfold Profile.validateForm.
    cbn [mbind Prog_bind bind exec run]. rewrite bool_decide_eq_false_2 by done.
    reflexivity.
Qed.

Lemma validateForm_accepts_witness :
  let formData :=
    {| Profile.fd_email := "ann"; Profile.fd_firstName := "Ann";
       Profile.fd_lastName := "Lee"; Profile.fd_phoneNumber := "";
       Profile.fd_emergencyContact := "" |} in
  Profile.newErrors formData <> []
  /\ invoke demo_env (HandleSaveProfile formData) signed_in
     = {| outcome := Returned tt; final := signed_in;
          events := [Ran (SetErrors [("email", "Please enter a valid email")])] |}.
Proof.
  intros formData. split; [discriminate|].
  exact (proj2 (validateForm_accepts demo_env formData signed_in)
           ltac:(discriminate)).
Defined.

(** X7. Without a user or a token in the auth context, [updateUserInfo] throws
    before it does anything, and [handleSaveProfile], given a valid profile,
    shows its failure alert: no request is sent, the loading flag of the
    auth context is not touched and nothing is stored. *)
Theorem saveProfile_without_session (env : Env) (formData : Profile.FormData)
    (userData : UseAuth.UpdateUserData) (w : World) :
  auth_user w = None \/ nonempty (auth_token w) = None ->
  run env (UseAuth.updateUserInfo (auth_user w) (auth_token w) userData) w
  = {| outcome := Threw (ErrorObj "User not authenticated"); final := w;
       events := [] |}
  /\ (Profile.newErrors formData = [] ->
      events (invoke env (HandleSaveProfile formData) w)
      = [Ran (SetErrors []);
         Ran (SetFlag ProfileIsLoading true);
         Ran (ConsoleError "Error updating profile:");
         Ran (AlertShown "Error" "Failed to update profile. Please try again.");
         Ran (SetFlag ProfileIsLoading false)]
      /\ secure_store (final (invoke env (HandleSaveProfile formData) w))
         = secure_store w
      /\ auth_user (final (invoke env (HandleSaveProfile formData) w))
         = auth_user w).
Proof.
  intros Hsession. split.
  - unfold UseAuth.updateUserInfo, nonempty in *.
    destruct (auth_user w), (auth_token w) as [t|]; try reflexivity.
    destruct Hsession as [?|Ht]; [done|]. by destruct (truthy t).
  - intros Hvalid.
    remember (invoke env (HandleSaveProfile formData) w) as r eqn:Hr.
    unfold invoke, perform, Profile.handleSaveProfile, Profile.validateForm in Hr.
    rewrite Hvalid in Hr.
    unfold nonempty in Hsession.
    run_cases Hr.
    all: subst r; cbn [events final secure_store auth_user].
    all: try (destruct Hsession; discriminate).
    all: try done.
Qed.

Lemma saveProfile_without_session_witness :
  let formData :=
    {| Profile.fd_email := "ann@example.org"; Profile.fd_firstName := "Ann";
       Profile.fd_lastName := "Lee"; Profile.fd_phoneNumber := "";
       Profile.fd_emergencyContact := "" |} in
  (auth_user fresh = None \/ nonempty (auth_token fresh) = None)
  /\ Profile.newErrors formData = []
  /\ events (invoke demo_env (HandleSaveProfile formData) fresh)
     = [Ran (SetErrors []);
        Ran (SetFlag ProfileIsLoading true);
        Ran (ConsoleError "Error updating profile:");
        Ran (AlertShown "Error" "Failed to update profile. Please try again.");
        Ran (SetFlag ProfileIsLoading false)].
Proof.
  intros formData. split; [by left|]. split; [reflexivity|].
  exact (proj1 (proj2 (saveProfile_without_session demo_env formData
                         {| UseAuth.up_email := ""; UseAuth.up_first_name := None;
                            UseAuth.up_last_name := None;
                            UseAuth.up_phone_number := None;
                            UseAuth.up_emergency_contact := None |}
                         fresh (or_introl eq_refl)) eq_refl)).
Defined.

(** ** Registration and profile *)

(** X8. When the backend refuses a registration, [signUp] shows the [detail] of
    the answer, or [Registration failed] when there is none, and rethrows;
    [handleSignUp] logs the error again, shows no alert of its own and
    lowers both flags. *)
Theorem signUp_shows_server_detail (env : Env) (form : UseAuth.SignUpData) (w : World)
    (r : Response) (detail : option string) :
  requests (events (invoke env (HandleSignUp form) w)) <> [] ->
  net env (clock w) (UseAuth.register_request form) = Fulfilled r ->
  ok r = false ->
  body_read env KErrorDetail (S (clock w)) r = Fulfilled detail ->
  events (invoke env (HandleSignUp form) w)
  = [Ran (SetFlag SignUpIsSubmitting true);
     Ran (SetFlag AuthIsLoading true);
     Requested (UseAuth.register_request form);
     Responded (UseAuth.register_request form) (Fulfilled r);
     Ran (ConsoleError "Sign up error:");
     Ran (AlertShown "Error" (or_else detail "Registration failed"));
     Ran (SetFlag AuthIsLoading false);
     Ran (ConsoleError "Sign up error:");
     Ran (SetFlag SignUpIsSubmitting false)].
Proof.
  intros Hsent Hnet Hok Hbody.
  remember (invoke env (HandleSignUp form) w) as res eqn:Hres.
  run_cases Hres.
  all: subst res; cbn [events] in Hsent |- *; try done.
  all: simplify_eq; try done; try congruence.
  all: match goal with
       | H : body_read _ _ _ _ = _ |- _ =>
           rewrite Hbody in H; first [discriminate H | injection H as <-]
       end.
  all: reflexivity.
Qed.

Lemma signUp_shows_server_detail_witness :
  let form := {| UseAuth.su_firstName := "Ann"; UseAuth.su_lastName := "Lee";
                 UseAuth.su_email := "ann@example.org"; UseAuth.su_username := "ann";
                 UseAuth.su_phoneNumber := ""; UseAuth.su_password := "secret1" |} in
  let r := {| status := 500; statusText := "Internal Server Error" |} in
  requests (events (invoke failing_env (HandleSignUp form) fresh)) <> []
  /\ ok r = false
  /\ events (invoke failing_env (HandleSignUp form) fresh)
     = [Ran (SetFlag SignUpIsSubmitting true);
        Ran (SetFlag AuthIsLoading true);
        Requested (UseAuth.register_request form);
        Responded (UseAuth.register_request form) (Fulfilled r);
        Ran (ConsoleError "Sign up error:");
        Ran (AlertShown "Error" (or_else None "Registration failed"));
        Ran (SetFlag AuthIsLoading false);
        Ran (ConsoleError "Sign up error:");
        Ran (SetFlag SignUpIsSubmitting false)].
Proof.
  intros form r. split; [discriminate|]. split; [reflexivity|].
  apply (signUp_shows_server_detail failing_env form fresh r None);
    [discriminate|reflexivity|reflexivity|reflexivity].
Defined.

(** X9. A profile that is saved keeps the id and the user name of the user, and
    keeps the first or the last name it had when the new one is empty,
    although the empty one has been sent to the backend; the user stored
    under [userData] is the one of the auth context, and the token is not
    touched. *)
Theorem saveProfile_keeps_identity (env : Env) (formData : Profile.FormData)
    (w : World) (user : User) (token : string) :
  auth_user w = Some user ->
  auth_token w = Some token ->
  Ran (AlertShown "Success" "Profile updated successfully")
  ∈ events (invoke env (HandleSaveProfile formData) w) ->
  exists req updated,
    requests (events (invoke env (HandleSaveProfile formData) w)) = [req]
    /\ body req
       = JsonPayload
           (JObj [("email", JStr (Profile.fd_email formData));
                  ("first_name", JStr (Profile.fd_firstName formData));
                  ("last_name", JStr (Profile.fd_lastName formData));
                  ("phone_number", JStr (Profile.fd_phoneNumber formData));
                  ("emergency_contact", JStr (Profile.fd_emergencyContact formData))])
    /\ auth_user (final (invoke env (HandleSaveProfile formData) w)) = Some updated
    /\ auth_token (final (invoke env (HandleSaveProfile formData) w)) = Some token
    /\ secure_store (final (invoke env (HandleSaveProfile formData) w)) !! "userData"
       = Some (stringify_user env updated)
    /\ id updated = id user
    /\ username updated = username user
    /\ email updated = Profile.fd_email formData
    /\ firstName updated
       = (if truthy (Profile.fd_firstName formData)
          then Profile.fd_firstName formData else firstName user)
    /\ lastName updated
       = (if truthy (Profile.fd_lastName formData)
          then Profile.fd_lastName formData else lastName user).
Proof.
  intros Huser Htoken Hin.
  remember (invoke env (HandleSaveProfile formData) w) as res eqn:Hres.
  unfold invoke, perform in Hres. rewrite Huser, Htoken in Hres.
  run_cases Hres.
  all: subst res; cbn [events final auth_user auth_token secure_store] in Hin |- *.
  all: in_cases Hin.
  eexists _, _. split; [reflexivity|]. split; [reflexivity|].
  split; [reflexivity|]. split; [done|].
  split; [by rewrite lookup_insert_eq|].
  repeat split.
Qed.

Lemma saveProfile_keeps_identity_witness :
  let formData :=
    {| Profile.fd_email := "ann@example.org"; Profile.fd_firstName := "";
       Profile.fd_lastName := "Li"; Profile.fd_phoneNumber := "";
       Profile.fd_emergencyContact := "" |} in
  exists updated,
    auth_user (final (invoke demo_env (HandleSaveProfile formData) signed_in))
    = Some updated
    /\ firstName updated = "Ann" /\ lastName updated = "Li".
Proof.
  intros formData.
  destruct (saveProfile_keeps_identity demo_env formData signed_in
              (UseAuth.format_user demo_user) "tok" eq_refl eq_refl)
    as (req & updated & _ & _ & Huser & _ & _ & _ & _ & _ & Hfirst & Hlast).
  { vm_compute. in_trace. }
  exists updated. split; [exact Huser|]. split; [exact Hfirst|exact Hlast].
Defined.

(** ** Creating a space *)

(** X10. [handleSubmit] tests the name before the session: a blank name gives
    the alert about the name and nothing else, signed in or not.  When the
    backend refuses the space, the alert shows the [detail] of the answer,
    or [Failed to create space] when there is none. *)
Theorem handleSubmit_errors (env : Env) (spaceName description : string)
    (selectedPatientIds : list string) (w : World) :
  (truthy (trim spaceName) = false ->
   invoke env (AddHandleSubmit spaceName description selectedPatientIds) w
   = {| outcome := Returned tt; final := w;
        events := [Ran (AlertShown "Error" "Please enter a name for your space")] |})
  /\ (forall r detail,
        requests (events (invoke env (AddHandleSubmit spaceName description
                                        selectedPatientIds) w)) <> [] ->
        (forall req, net env (clock w) req = Fulfilled r) ->
        ok r = false ->
        body_read env KErrorDetail (S (clock w)) r = Fulfilled detail ->
        exists req,
          events (invoke env (AddHandleSubmit spaceName description
                                selectedPatientIds) w)
          = [Ran (SetFlag AddIsLoading true);
             Requested req;
             Responded req (Fulfilled r);
             Ran (ConsoleError "Error creating space:");
             Ran (AlertShown "Error" (or_else detail "Failed to create space"));
             Ran (SetFlag AddIsLoading false)]).
Proof.
  split.
  - intros Hblank. unfold invoke, perform, AddSpace.handleSubmit.
    by rewrite Hblank.
  - intros r detail Hsent Hnet Hok Hbody.
    remember (invoke env (AddHandleSubmit spaceName description selectedPatientIds) w)
      as res eqn:Hres.
    run_cases Hres.
    all: subst res; cbn [events] in Hsent |- *; try done.
    all: repeat match goal with
           | H : net _ _ _ = _ |- _ =>
               rewrite Hnet in H; first [discriminate H | injection H as <-]
           end; try congruence.
    all: match goal with
         | H : body_read _ _ _ _ = _ |- _ =>
             rewrite Hbody in H; first [discriminate H | injection H as <-]
         end.
    all: by eexists.
Qed.

Lemma handleSubmit_errors_witness :
  truthy (trim "   ") = false
  /\ invoke demo_env (AddHandleSubmit "   " "" []) fresh
     = {| outcome := Returned tt; final := fresh;
          events := [Ran (AlertShown "Error" "Please enter a name for your space")] |}.
Proof.
  split; [reflexivity|].
  exact (proj1 (handleSubmit_errors demo_env "   " "" [] fresh) eq_refl).
Defined.

(** ** The session on the device *)

(** X11. [loadToken] sends no request and always lowers the loading flag of the
    auth context.  When either key is missing from the secure store, or
    holds the empty string, the auth context is left as it was.  When both
    are there and the stored user is not valid JSON, the token is put into
    the auth context and the user is not. *)
Theorem loadToken_edges (env : Env) (w : World) :
  requests (events (invoke env LoadToken w)) = []
  /\ outcome (invoke env LoadToken w) = Returned tt
  /\ flags (final (invoke env LoadToken w)) AuthIsLoading = false
  /\ (nonempty (secure_store w !! "userToken") = None
      \/ nonempty (secure_store w !! "userData") = None ->
      auth_token (final (invoke env LoadToken w)) = auth_token w
      /\ auth_user (final (invoke env LoadToken w)) = auth_user w)
  /\ (forall t s e,
        secure_store w !! "userToken" = Some t ->
        secure_store w !! "userData" = Some s ->
        truthy t = true -> truthy s = true ->
        (forall n key, keychain_fault env n key = None) ->
        parse_user env s = Rejected e ->
        auth_token (final (invoke env LoadToken w)) = Some t
        /\ auth_user (final (invoke env LoadToken w)) = auth_user w
        /\ Ran (ConsoleError "Failed to load auth token")
           ∈ events (invoke env LoadToken w)).
Proof.
  split; [|split; [|split; [|split]]].
  - remember (invoke env LoadToken w) as r eqn:Hr. run_cases Hr. all: by subst r.
  - remember (invoke env LoadToken w) as r eqn:Hr. run_cases Hr. all: by subst r.
  - remember (invoke env LoadToken w) as r eqn:Hr. run_cases Hr. all: by subst r.
  - intros Hmissing. unfold nonempty in Hmissing.
    remember (invoke env LoadToken w) as r eqn:Hr. run_cases Hr.
    all: subst r; cbn [final auth_token auth_user]; try done.
    all: destruct Hmissing; discriminate.
  - intros t s e Ht Hs Htt Hts Hok Hparse.
    remember (invoke env LoadToken w) as r eqn:Hr. run_cases Hr.
    all: subst r; cbn [final events auth_user auth_token].
    all: repeat match goal with
           | H : keychain_fault _ _ _ = Some _ |- _ => rewrite Hok in H; discriminate H
           | H : Some _ = Some _ |- _ => injection H as ->
           | H : None = Some _ |- _ => discriminate H
           end.
    all: try congruence.
    all: split; [done|]; split; [done|].
    all: repeat first [apply list_elem_of_here | apply list_elem_of_further].
Qed.

Lemma loadToken_edges_witness :
  let w := {| auth_user := None; auth_token := None; flags := flags fresh;
              secure_store := <["userToken" := "tok"]> ∅; clock := 0;
              parked := [] |} in
  (nonempty (secure_store w !! "userToken") = None
   \/ nonempty (secure_store w !! "userData") = None)
  /\ auth_token (final (invoke demo_env LoadToken w)) = auth_token w
  /\ auth_user (final (invoke demo_env LoadToken w)) = auth_user w.
Proof.
  intros w. split; [by right|].
  exact (proj1 (proj2 (proj2 (proj2 (loadToken_edges demo_env w))))
           (or_intror eq_refl)).
Defined.

(** X12. [signOut] sends no request.  The Sign Out button always ends on the
    login screen.  When the keychain works, both keys are deleted, the auth
    context is emptied, and [loadToken] on the next start restores nothing;
    when a deletion fails, the auth context keeps its user and its token. *)
Theorem signOut_clears (env : Env) (w : World) :
  requests (events (invoke env SignOutConfirmed w)) = []
  /\ outcome (invoke env SignOutConfirmed w) = Returned tt
  /\ last_events 2 (events (invoke env SignOutConfirmed w))
     = [Ran (SetFlag AuthIsLoading false); Ran (RouterReplace "/(auth)/login")]
  /\ ((forall n key, keychain_fault env n key = None) ->
      auth_token (final (invoke env SignOutConfirmed w)) = None
      /\ auth_user (final (invoke env SignOutConfirmed w)) = None
      /\ secure_store (final (invoke env SignOutConfirmed w))
         = delete "userData" (delete "userToken" (secure_store w))
      /\ forall env',
           auth_token
             (final (invoke env' LoadToken
                       (restarted (final (invoke env SignOutConfirmed w)))))
           = None)
  /\ (Ran (ConsoleError "Error signing out") ∈ events (invoke env SignOutConfirmed w) ->
      auth_token (final (invoke env SignOutConfirmed w)) = auth_token w
      /\ auth_user (final (invoke env SignOutConfirmed w)) = auth_user w).
Proof.
  split; [|split; [|split; [|split]]].
  - remember (invoke env SignOutConfirmed w) as r eqn:Hr. run_cases Hr. all: by subst r.
  - remember (invoke env SignOutConfirmed w) as r eqn:Hr. run_cases Hr. all: by subst r.
  - remember (invoke env SignOutConfirmed w) as r eqn:Hr. run_cases Hr. all: by subst r.
  - intros Hok.
    remember (invoke env SignOutConfirmed w) as r eqn:Hr. run_cases Hr.
    all: repeat match goal with
           | H : keychain_fault _ _ _ = Some _ |- _ => rewrite Hok in H; discriminate H
           end.
    subst r. cbn [final auth_user auth_token secure_store].
    split; [done|]. split; [done|]. split; [done|].
    intros env'. unfold restarted. cbn [secure_store final clock].
    remember (invoke env' LoadToken _) as r eqn:Hr. run_cases Hr.
    all: subst r; cbn [final auth_token]; try done.
    all: match goal with
         | H : delete _ (delete _ _) !! "userToken" = Some _ |- _ =>
             rewrite lookup_delete_ne, lookup_delete_eq in H by done; discriminate H
         end.
  - intros Hin.
    remember (invoke env SignOutConfirmed w) as r eqn:Hr. run_cases Hr.
    all: subst r; cbn [events final auth_user auth_token] in Hin |- *.
    all: try done.
    all: in_cases Hin.
Qed.

Lemma signOut_clears_witness :
  (forall n key, keychain_fault demo_env n key = None)
  /\ auth_token (final (invoke demo_env SignOutConfirmed signed_in)) = None
  /\ auth_user (final (invoke demo_env SignOutConfirmed signed_in)) = None.
Proof.
  split; [done|].
  destruct (proj1 (proj2 (proj2 (proj2 (signOut_clears demo_env signed_in)))))
    as (Htoken & Huser & _); [done|].
  by split.
Defined.

(** ** Uploads without a token *)

(** X13. The Continue Anyway button uploads without looking at the token: with no
    token in the auth context the request is sent all the same, for the
    space [test-space-123], with the header [Authorization: Bearer null]. *)
Theorem continueAnyway_without_token (env : Env) (imageUri : string) (w : World) :
  truthy imageUri = true ->
  auth_token w = None ->
  exists req,
    requests (events (invoke env (ContinueAnyway (Some imageUri)) w)) = [req]
    /\ headers req = [("Authorization", "Bearer null")]
    /\ exists file, body req = FormPayload [("space_id", FieldPart "test-space-123");
                                            ("image", file)].
Proof.
  intros Huri Htoken.
  exists (CaptureNew.upload_request None imageUri "test-space-123").
  split; [|split; [reflexivity|by eexists]].
  remember (invoke env (ContinueAnyway (Some imageUri)) w) as r eqn:Hr.
  unfold invoke, perform in Hr. rewrite Htoken in Hr.
  unfold CaptureNew.continueAnyway, nonempty in Hr. rewrite Huri in Hr.
  run_cases Hr. all: by subst r.
Qed.

Lemma continueAnyway_without_token_witness :
  truthy "file:///cache/photo.jpg" = true
  /\ auth_token fresh = None
  /\ exists req,
       requests (events (invoke demo_env (ContinueAnyway (Some "file:///cache/photo.jpg"))
                           fresh)) = [req]
       /\ headers req = [("Authorization", "Bearer null")]
       /\ exists file, body req = FormPayload [("space_id", FieldPart "test-space-123");
                                               ("image", file)].
Proof.
  split; [reflexivity|]. split; [reflexivity|].
  exact (continueAnyway_without_token demo_env "file:///cache/photo.jpg" fresh
           eq_refl eq_refl).
Defined.

(** ** Patients *)



(** ** Deleting *)

(** X15. [handleDeleteSpace] and [handleDeletePatient] only ask: they send no
    request.  The Delete button of the space screen leaves for the tabs
    exactly when the answer to its request has a 2xx status. *)
Theorem delete_asks_first (env : Env) (id : option string) (w : World) :
  requests (events (invoke env (HandleDeleteSpace id) w)) = []
  /\ requests (events (invoke env HandleDeletePatient w)) = []
  /\ (Ran (RouterReplace "/tabs") ∈ events (invoke env (DeleteSpaceConfirmed id) w)
      <-> exists req r,
            Responded req (Fulfilled r) ∈ events (invoke env (DeleteSpaceConfirmed id) w)
            /\ ok r = true).
Proof.
  split; [|split].
  - remember (invoke env (HandleDeleteSpace id) w) as r eqn:Hr. run_cases Hr.
    all: by subst r.
  - remember (invoke env HandleDeletePatient w) as r eqn:Hr. run_cases Hr.
    all: by subst r.
  - remember (invoke env (DeleteSpaceConfirmed id) w) as r eqn:Hr. run_cases Hr.
    all: subst r; cbn [events]; split.
    all: try (intros Hin; in_cases Hin; fail).
    all: try (intros (req & r & Hin & Hok); in_cases Hin; congruence).
    all: intros _; first [eexists _, _; split; [|eassumption]; in_trace | in_trace].
Qed.

(** ** Uploads that fail *)

(** X16. When the backend refuses an upload, [performUpload] reads the text of the
    answer only to log it: whether that read succeeds or fails, the handler
    logs twice, shows its one alert and lowers the flag. *)
Theorem performUpload_failure (env : Env) (imageUri id : string) (w : World)
    (r : Response) :
  net env (clock w) (CaptureNew.upload_request (auth_token w) imageUri id)
  = Fulfilled r ->
  ok r = false ->
  events (invoke env (PerformUpload imageUri id) w)
  = [Ran (SetFlag CaptureUploading true);
     Requested (CaptureNew.upload_request (auth_token w) imageUri id);
     Responded (CaptureNew.upload_request (auth_token w) imageUri id) (Fulfilled r);
     Ran (ConsoleError "Server error:");
     Ran (ConsoleError "Error uploading image:");
     Ran (AlertShown "Error" "Failed to upload image. Please try again.");
     Ran (SetFlag CaptureUploading false)].
Proof.
  intros Hnet Hok.
  remember (invoke env (PerformUpload imageUri id) w) as res eqn:Hres.
  run_cases Hres.
  all: subst res; cbn [events]; simplify_eq; try done; congruence.
Qed.

Lemma performUpload_failure_witness :
  let req := CaptureNew.upload_request (Some "tok") "file:///cache/photo.jpg" "s1" in
  let r := {| status := 500; statusText := "Internal Server Error" |} in
  net failing_env (clock signed_in) req = Fulfilled r
  /\ ok r = false
  /\ events (invoke failing_env (PerformUpload "file:///cache/photo.jpg" "s1") signed_in)
     = [Ran (SetFlag CaptureUploading true);
        Requested req;
        Responded req (Fulfilled r);
        Ran (ConsoleError "Server error:");
        Ran (ConsoleError "Error uploading image:");
        Ran (AlertShown "Error" "Failed to upload image. Please try again.");
        Ran (SetFlag CaptureUploading false)].
Proof.
  intros req r. split; [reflexivity|]. split; [reflexivity|].
  exact (performUpload_failure failing_env "file:///cache/photo.jpg" "s1" signed_in r
           eq_refl eq_refl).
Defined.

(** ** Refreshing after a change *)

(** X17. A change that the backend accepts is followed by a fresh fetch, started
    and not awaited: saving a space fetches the space again, saving or
    deleting a patient fetches the patients again.  A change that the
    backend refuses is followed by no request. *)
Theorem changes_refresh (env : Env) (w : World) (req : Request) (r : Response) :
  (forall id space spaceName spaceDescription selectedPatientIds,
     Responded req (Fulfilled r)
     ∈ events (invoke env (HandleSaveSpace id space spaceName spaceDescription
                             selectedPatientIds) w) ->
     exists token i,
       auth_token w = Some token /\ id = Some i
       /\ requests (events (invoke env (HandleSaveSpace id space spaceName
                                          spaceDescription selectedPatientIds) w))
          = if ok r then [req; SpaceDetails.space_request token i] else [req])
  /\ (forall form currentPatient,
        Responded req (Fulfilled r)
        ∈ events (invoke env (HandleSavePatient form currentPatient) w) ->
        exists token,
          auth_token w = Some token
          /\ requests (events (invoke env (HandleSavePatient form currentPatient) w))
             = if ok r && bool_decide (auth_user w <> None)
               then [req; HomePatients.patients_request token] else [req])
  /\ (forall patientId,
        Responded req (Fulfilled r)
        ∈ events (invoke env (DeletePatientConfirmed patientId) w) ->
        exists token,
          auth_token w = Some token
          /\ requests (events (invoke env (DeletePatientConfirmed patientId) w))
             = if ok r && bool_decide (auth_user w <> None)
               then [req; HomePatients.patients_request token] else [req]).
Proof.
  split; [|split].
  - intros id space spaceName spaceDescription selectedPatientIds Hin.
    remember (invoke env (HandleSaveSpace id space spaceName spaceDescription
                            selectedPatientIds) w) as res eqn:Hres.
    run_cases Hres.
    all: subst res; cbn [events] in Hin |- *; in_cases Hin.
    all: injection Hin as -> ->.
    all: eexists _, _; split; [done|]; split; [done|].
    all: by match goal with H : ok _ = _ |- _ => rewrite H end.
  - intros form currentPatient Hin.
    remember (invoke env (HandleSavePatient form currentPatient) w) as res eqn:Hres.
    run_cases Hres.
    all: subst res; cbn [events] in Hin |- *; in_cases Hin.
    all: injection Hin as -> ->.
    all: eexists; split; [done|].
    all: match goal with H : ok _ = _ |- _ => rewrite H end.
    all: repeat match goal with H : auth_user _ = _ |- _ => rewrite H end.
    all: done.
  - intros patientId Hin.
    remember (invoke env (DeletePatientConfirmed patientId) w) as res eqn:Hres.
    run_cases Hres.
    all: subst res; cbn [events] in Hin |- *; in_cases Hin.
    all: injection Hin as -> ->.
    all: eexists; split; [done|].
    all: match goal with H : ok _ = _ |- _ => rewrite H end.
    all: repeat match goal with H : auth_user _ = _ |- _ => rewrite H end.
    all: done.
Qed.

Lemma changes_refresh_witness :
  let req := SpaceScreen.update_request "tok" "s1" "Kitchen" "" [] in
  let r := {| status := 200; statusText := "OK" |} in
  Responded req (Fulfilled r)
  ∈ events (invoke demo_env (HandleSaveSpace (Some "s1") None "Kitchen" "" []) signed_in)
  /\ exists token i,
       auth_token signed_in = Some token /\ Some "s1" = Some i
       /\ requests (events (invoke demo_env
                              (HandleSaveSpace (Some "s1") None "Kitchen" "" [])
                              signed_in))
          = [req; SpaceDetails.space_request token i].
Proof.
  intros req r. split; [vm_compute; in_trace|].
  apply (proj1 (changes_refresh demo_env signed_in req r) (Some "s1") None "Kitchen" "" []).
  vm_compute. in_trace.
Defined.

(** ** The assistant *)



(** ** The patients of a space *)




(** ** What every handler does *)

Lemma handlers_common env a w :
  outcome (invoke env a w) = Returned tt
  /\ (sends_without_token a = false -> nonempty (auth_token w) = None ->
      requests (events (invoke env a w)) = [])
  /\ (shows_success (events (invoke env a w)) = true ->
      answered_ok (events (invoke env a w)) = true)
  /\ is_chat a || keeps_data (events (invoke env a w)) = true
  /\ ((forall n key, keychain_fault env n key = None) ->
      a <> LoadToken -> synced env w -> synced env (final (invoke env a w)))
  /\ Forall (fun req => base req
                        = if uses_literal_base a then LiteralBase else ConfigBase)
       (requests (events (invoke env a w))).
Proof.
  remember (invoke env a w) as r eqn:Hr. unfold nonempty, synced.
  destruct a; run_cases Hr.
  all: subst r;
    cbn [outcome events final auth_token auth_user secure_store tick with_store later].
  all: split; [reflexivity|].
  all: split; [intros Hkind Htoken; first [discriminate Hkind | discriminate Htoken | reflexivity]|].
  all: split;
    [cbn [shows_success answered_ok bool_decide decide_rel orb];
     repeat match goal with H : ok _ = _ |- _ => rewrite H end;
     repeat match goal with |- context [ok ?x] => destruct (ok x) end;
     first [done | intros _; reflexivity | vm_compute; done]|].
  all: split;
    [cbn [is_chat keeps_data writes writes_data failed negb andb orb];
     repeat match goal with H : ok _ = _ |- _ => rewrite H end;
     repeat match goal with |- context [ok ?x] => destruct (ok x) end;
     reflexivity|].
  all: split;
    [|cbn [requests omap list_omap uses_literal_base]; repeat constructor;
      match goal with
      | |- context [HomePatients.save_request _ ?p _] => by destruct p
      | _ => reflexivity
      end].
  all: intros Hok Hload Hsynced; try done.
  all: repeat match goal with
         | H : keychain_fault _ _ _ = Some _ |- _ => rewrite Hok in H; discriminate H
         end.
  all: repeat match goal with
         | H : auth_token _ = _ |- _ => rewrite H
         | H : auth_user _ = _ |- _ => rewrite H
         | H : secure_store _ !! _ = _ |- _ => rewrite H
         end; try done.
  all: cbv beta iota; try done.
  all: try destruct Hsynced as [Htoken Huser].
  all: repeat split; rewrite ?lookup_insert_eq; rewrite ?lookup_insert_ne by done;
    rewrite ?lookup_insert_eq; try done.
Qed.

Lemma shows_success_elem tr message :
  Ran (AlertShown "Success" message) ∈ tr -> shows_success tr = true.
Proof.
  induction tr as [|e tr IH]; intros Hin; [by apply elem_of_nil in Hin|].
  apply elem_of_cons in Hin as [<-|Hin]; [done|].
  destruct e as [| |[]]; cbn [shows_success]; try by apply IH.
  rewrite IH by done. by rewrite orb_true_r.
Qed.

Lemma answered_ok_elem tr :
  answered_ok tr = true ->
  exists req r, Responded req (Fulfilled r) ∈ tr /\ ok r = true.
Proof.
  induction tr as [|e tr IH]; [done|]. intros Htr.
  assert (Hrest : answered_ok tr = true ->
            exists req r, Responded req (Fulfilled r) ∈ e :: tr /\ ok r = true).
  { intros (req & r & ? & ?)%IH. exists req, r. split; [by right|done]. }
  destruct e as [|req [r|]|]; cbn [answered_ok] in Htr; try by apply Hrest.
  apply orb_true_iff in Htr as [Hok|Htr]; [|by apply Hrest].
  exists req, r. split; [by left|done].
Qed.

Lemma writes_elem tr c : Ran c ∈ tr -> writes_data c = true -> writes tr = true.
Proof.
  induction tr as [|e tr IH]; intros Hin Hc; [by apply elem_of_nil in Hin|].
  apply elem_of_cons in Hin as [<-|Hin]; cbn [writes].
  - by rewrite Hc.
  - destruct e; rewrite ?IH by done; by rewrite ?orb_true_r.
Qed.

Lemma keeps_data_split tr :
  keeps_data tr = true ->
  forall pre req s post c,
    tr = (pre ++ Responded req s :: post)%list ->
    failed s = true -> Ran c ∈ post -> writes_data c = false.
Proof.
  intros Htr pre. revert tr Htr.
  induction pre as [|e pre IH]; intros tr Htr req s post c -> Hs Hin.
  - cbn [app keeps_data] in Htr. rewrite Hs in Htr. cbn [negb orb] in Htr.
    apply andb_true_iff in Htr as [Hpost _]. apply negb_true_iff in Hpost.
    destruct (writes_data c) eqn:Hc; [|done].
    by rewrite (writes_elem post c) in Hpost.
  - eapply (IH (pre ++ Responded req s :: post)%list); [|done..].
    destruct e; cbn [app keeps_data] in Htr; try done.
    by apply andb_true_iff in Htr as [_ ?].
Qed.

(** X20. No handler rejects: whatever the environment answers, the promise of
    every handler of a screen is fulfilled, so that no rejection is left
    unhandled. *)
Theorem handlers_never_reject (env : Env) (a : Action) (w : World) :
  outcome (invoke env a w) = Returned tt.
Proof. apply handlers_common. Qed.

(** X21. Apart from sign-in, sign-up, the upload of a picture once it has
    started and the assistant, no handler sends a request while the auth
    context has no token, or an empty one. *)
Theorem no_request_without_token (env : Env) (a : Action) (w : World) :
  sends_without_token a = false ->
  nonempty (auth_token w) = None ->
  requests (events (invoke env a w)) = [].
Proof. apply handlers_common. Qed.

Lemma no_request_without_token_witness :
  sends_without_token (FetchSpaceDetails (Some "s1")) = false
  /\ nonempty (auth_token fresh) = None
  /\ requests (events (invoke failing_env (FetchSpaceDetails (Some "s1")) fresh)) = [].
Proof.
  split; [reflexivity|]. split; [reflexivity|].
  exact (no_request_without_token failing_env (FetchSpaceDetails (Some "s1")) fresh
           eq_refl eq_refl).
Defined.

(** X22. A handler shows an alert titled Success only when a request of its own
    has been answered with a 2xx status. *)
Theorem success_only_after_ok (env : Env) (a : Action) (w : World) (message : string) :
  Ran (AlertShown "Success" message) ∈ events (invoke env a w) ->
  exists req r,
    Responded req (Fulfilled r) ∈ events (invoke env a w) /\ ok r = true.
Proof.
  intros Hin. apply answered_ok_elem, handlers_common.
  by eapply shows_success_elem.
Qed.

Lemma success_only_after_ok_witness :
  exists req r,
    Responded req (Fulfilled r)
    ∈ events (invoke demo_env (AddHandleSubmit "Kitchen" "" []) signed_in)
    /\ ok r = true.
Proof.
  apply (success_only_after_ok demo_env (AddHandleSubmit "Kitchen" "" []) signed_in
           (AddSpace.created_message "Kitchen")).
  vm_compute. in_trace.
Defined.

(** X23. After a request that was rejected or answered with a status outside
    200-299, a handler changes nothing of the data the screen or the auth
    context holds: no list, space, text, user or token is set and no message
    is appended; the one exception is the apology that the two [onSend]
    append to the chat. *)
Theorem data_kept_on_failure (env : Env) (a : Action) (w : World)
    (pre post : list Event) (req : Request) (s : Settled Response) (c : Cmd) :
  events (invoke env a w) = (pre ++ Responded req s :: post)%list ->
  failed s = true ->
  Ran c ∈ post ->
  writes_data c = false
  \/ (is_chat a = true /\ c = AppendMessages FromAgent [Chat.apology]).
Proof.
  intros Hsplit Hs Hin. destruct (is_chat a) eqn:Hchat.
  - apply responses_split in Hsplit.
    remember (invoke env a w) as res eqn:Hres.
    destruct a; try discriminate Hchat; clear Hchat; run_cases Hres.
    all: subst res; cbn [events responses] in Hsplit.
    all: in_cases Hsplit; injection Hsplit as ? ? ?; subst.
    all: cbn [failed negb] in Hs;
      repeat match goal with H : ok _ = _ |- _ => rewrite H in Hs end;
      try discriminate Hs.
    all: in_cases Hin; injection Hin as ->; first [by left | by right].
  - left. eapply keeps_data_split; [|exact Hsplit|exact Hs|exact Hin].
    pose proof (handlers_common env a w) as (_ & _ & _ & Hkeep & _).
    by rewrite Hchat in Hkeep.
Qed.

Lemma data_kept_on_failure_witness :
  let req := HomeScreen.spaces_request LiteralBase "tok" (UseAuth.format_user demo_user) in
  let r := {| status := 500; statusText := "Internal Server Error" |} in
  let pre := [Ran (SetFlag HomeIsLoading true); Requested req] in
  let c := AlertShown "Error" "Failed to load your spaces. Please try again later." in
  let post := [Ran (ConsoleError "Error fetching spaces:"); Ran c;
               Ran (SetFlag HomeIsLoading false)] in
  events (invoke failing_env HomeFetchSpaces signed_in)
  = (pre ++ Responded req (Fulfilled r) :: post)%list
  /\ failed (Fulfilled r) = true
  /\ Ran c ∈ post
  /\ (writes_data c = false
      \/ (is_chat HomeFetchSpaces = true
          /\ c = AppendMessages FromAgent [Chat.apology])).
Proof.
  intros req r pre c post. split; [reflexivity|]. split; [reflexivity|].
  split; [in_trace|].
  apply (data_kept_on_failure failing_env HomeFetchSpaces signed_in pre post req
           (Fulfilled r) c); [reflexivity|reflexivity|in_trace].
Defined.

(** X24. While the keychain works, every handler other than [loadToken] keeps the
    auth context and the secure store in step: if the context holds no
    session, or holds the token and the user that are stored under
    [userToken] and [userData], the same is true when the handler ends. *)
Theorem session_synced (env : Env) (a : Action) (w : World) :
  (forall n key, keychain_fault env n key = None) ->
  a <> LoadToken ->
  synced env w ->
  synced env (final (invoke env a w)).
Proof. apply handlers_common. Qed.

Lemma session_synced_witness :
  (forall n key, keychain_fault demo_env n key = None)
  /\ SignIn "ann" "pw" <> LoadToken
  /\ synced demo_env fresh
  /\ synced demo_env (final (invoke demo_env (SignIn "ann" "pw") fresh)).
Proof.
  split; [done|]. split; [discriminate|]. split; [exact I|].
  apply session_synced; [done|discriminate|exact I].
Defined.


(** X25. The handlers of the auth hook and of the first home screen send their
    requests to the address written in the source; every other handler
    sends its requests to the address of the configuration. *)
Theorem backend_addresses (env : Env) (a : Action) (w : World) (req : Request) :
  req ∈ requests (events (invoke env a w)) ->
  base req = if uses_literal_base a then LiteralBase else ConfigBase.
Proof.
  revert req. apply Forall_forall, handlers_common.
Qed.

Lemma backend_addresses_witness :
  let req := UseAuth.login_request "ann" "pw" in
  req ∈ requests (events (invoke demo_env (SignIn "ann" "pw") fresh))
  /\ base req = LiteralBase.
Proof.
  intros req. split; [vm_compute; in_trace|].
  apply (backend_addresses demo_env (SignIn "ann" "pw") fresh req).
  vm_compute. in_trace.
Defined.

(** ** The entries of the generated assessment *)

Lemma at_index_member (arr : list string) (r : Q) :
  is_double r -> (0 <= r)%Q -> (r < 1)%Q ->
  arr <> [] -> (Z.of_nat (length arr) <= 2 ^ 52)%Z ->
  taken_from arr
    (CaptureMock.at_index arr (floor_times r (Z.of_nat (length arr)))).
Proof.
  intros Hdouble H0 H1 Harr Hshort.
  assert (Hlen : (0 < Z.of_nat (length arr))%Z) by (destruct arr; [done|cbn; lia]).
  pose proof (floor_times_bounds r _ Hdouble H0 H1 (conj Hlen Hshort)) as [Hlo Hhi].
  unfold CaptureMock.at_index.
  destruct (Z.ltb_spec (floor_times r (Z.of_nat (length arr))) 0); [lia|].
  destruct (arr !! Z.to_nat (floor_times r (Z.of_nat (length arr))))
    as [s|] eqn:Hs.
  - exists s. split; [done|]. by eapply list_elem_of_lookup_2.
  - apply lookup_ge_None in Hs. lia.
Qed.

Lemma pick_recommendations_members env left :
  valid_random env ->
  forall acc w,
    Forall (taken_from CaptureMock.possibleRecommendations) acc ->
    exists l n,
      returns env (CaptureMock.pick_recommendations left acc) w l (later n w)
      /\ Forall (taken_from CaptureMock.possibleRecommendations) l.
Proof.
  intros Hrandom. induction left as [|left IH]; intros acc w Hacc.
  - exists acc, 0%nat. by rewrite later_0.
  - set (rec := CaptureMock.at_index CaptureMock.possibleRecommendations
                  (floor_times (random env (clock w))
                     (Z.of_nat (length CaptureMock.possibleRecommendations)))).
    assert (Hrec : taken_from CaptureMock.possibleRecommendations rec).
    { destruct (Hrandom (clock w)) as (? & ? & ?).
      apply at_index_member; [done..|by vm_compute]. }
    destruct (decide (rec ∈ acc)) as [Hin|Hout].
    + destruct (IH acc (tick w) Hacc) as (l & n & Hrun & Hl).
      rewrite later_tick in Hrun. exists l, (S n). split; [|done].
      eapply returns_bind; [apply random_floor_returns|].
      cbv beta zeta. fold rec. rewrite bool_decide_eq_true_2 by done. exact Hrun.
    + destruct (IH (acc ++ [rec])%list (tick w)) as (l & n & Hrun & Hl).
      { apply Forall_app. split; [done|]. by apply Forall_singleton. }
      rewrite later_tick in Hrun. exists l, (S n). split; [|done].
      eapply returns_bind; [apply random_floor_returns|].
      cbv beta zeta. fold rec. rewrite bool_decide_eq_false_2 by done. exact Hrun.
Qed.

(** X26. Every hazard and every recommendation of a generated assessment is one
    of the strings of the list it is drawn from: with [Math.random] in its
    range, no index falls outside a list and no entry is [undefined]. *)
Theorem generateMockAnalysis_entries (env : Env) (w : World) :
  valid_random env ->
  exists a w',
    run env CaptureMock.generateMockAnalysis w
    = {| outcome := Returned a; final := w'; events := [] |}
    /\ Forall (taken_from CaptureMock.possibleHazards_high)
         (CaptureMock.high_priority (CaptureMock.hazard_list a))
    /\ Forall (taken_from CaptureMock.possibleHazards_medium)
         (CaptureMock.medium_priority (CaptureMock.hazard_list a))
    /\ Forall (taken_from CaptureMock.possibleHazards_low)
         (CaptureMock.low_priority (CaptureMock.hazard_list a))
    /\ Forall (taken_from CaptureMock.possibleRecommendations)
         (CaptureMock.recommendations a).
Proof.
  intros Hrandom. unfold CaptureMock.generateMockAnalysis.
  set (score := (floor_times (random env (clock w)) 40 + 60)%Z).
  assert (Hpick : forall arr n,
            arr <> [] -> (Z.of_nat (length arr) <= 2 ^ 52)%Z ->
            Forall (taken_from arr)
              [CaptureMock.at_index arr
                 (floor_times (random env n) (Z.of_nat (length arr)))]).
  { intros arr n Harr Hshort. apply Forall_singleton.
    destruct (Hrandom n) as (? & ? & ?). by apply at_index_member. }
  destruct (score <? 70)%Z eqn:Hhigh, (score <? 85)%Z eqn:Hmed.
  all: match goal with
       | _ : (?s <? 70)%Z = ?h, _ : (?s <? 85)%Z = ?m |- _ =>
           let j := constr:(((if h then 1 else 0) + (if m then 1 else 0) + 2)%nat) in
           let j := eval cbv in j in
           let c := constr:((j + clock w)%nat) in
           destruct (pick_recommendations_members env
                       (Z.to_nat (floor_times (random env c) 3 + 2)) Hrandom []
                       (later (S j) w) (Forall_nil_2 _))
             as (l & k & Hl & Hmembers);
           rewrite later_later in Hl;
           eexists _, (later (k + S j) w)
       end.
  all: split;
    [ returns_step; fold score; rewrite Hhigh;
      returns_step; rewrite Hmed;
      returns_step; returns_step; returns_step;
      eapply returns_bind; [exact Hl | apply returns_ret]
    | cbn [CaptureMock.high_priority CaptureMock.medium_priority
           CaptureMock.low_priority CaptureMock.hazard_list
           CaptureMock.recommendations];
      repeat split;
      first [ exact Hmembers | by apply Forall_nil_2
            | apply Hpick; [done|by vm_compute] ] ].
Qed.

Lemma generateMockAnalysis_entries_witness :
  exists a w',
    run demo_env CaptureMock.generateMockAnalysis fresh
    = {| outcome := Returned a; final := w'; events := [] |}
    /\ Forall (taken_from CaptureMock.possibleHazards_high)
         (CaptureMock.high_priority (CaptureMock.hazard_list a))
    /\ Forall (taken_from CaptureMock.possibleHazards_medium)
         (CaptureMock.medium_priority (CaptureMock.hazard_list a))
    /\ Forall (taken_from CaptureMock.possibleHazards_low)
         (CaptureMock.low_priority (CaptureMock.hazard_list a))
    /\ Forall (taken_from CaptureMock.possibleRecommendations)
         (CaptureMock.recommendations a).
Proof. exact (generateMockAnalysis_entries demo_env fresh demo_env_random). Defined.

(** ** Toggling twice *)

(** X27. Toggling twice a patient that was not selected gives back the selection
    itself; toggling twice a patient that was selected removes every copy of
    its id and puts it at the end, the other ids keeping their order. *)
Theorem togglePatientSelection_twice (patientId : string) (selected : list string) :
  (patientId ∉ selected ->
   AddSpace.togglePatientSelection patientId
     (AddSpace.togglePatientSelection patientId selected) = selected)
  /\ (patientId ∈ selected ->
      AddSpace.togglePatientSelection patientId
        (AddSpace.togglePatientSelection patientId selected)
      = (List.filter (fun id => negb (bool_decide (id = patientId))) selected
         ++ [patientId])%list).
Proof.
  assert (Hfilter : forall l, patientId ∉ l ->
            List.filter (fun id => negb (bool_decide (id = patientId))) l = l).
  { induction l as [|y l IH]; intros Hl; [done|]. cbn.
    rewrite bool_decide_eq_false_2; [|intros ->; apply Hl; by left]. cbn.
    f_equal. apply IH. intros ?. apply Hl. by right. }
  split; intros Hsel; unfold AddSpace.togglePatientSelection, includes.
  - rewrite (bool_decide_eq_false_2 (patientId ∈ selected)) by done.
    rewrite bool_decide_eq_true_2 by (apply elem_of_app; right; by left).
    rewrite List.filter_app, Hfilter by done. cbn.
    rewrite bool_decide_eq_true_2 by done. cbn. by rewrite app_nil_r.
  - rewrite (bool_decide_eq_true_2 (patientId ∈ selected)) by done.
    rewrite bool_decide_eq_false_2; [done|].
    intros [_ ?]%elem_of_remove. done.
Qed.

Lemma togglePatientSelection_twice_witness :
  "p2" ∈ ["p1"; "p2"; "p3"]
  /\ AddSpace.togglePatientSelection "p2"
       (AddSpace.togglePatientSelection "p2" ["p1"; "p2"; "p3"])
     = ["p1"; "p3"; "p2"].
Proof.
  split; [by right; left|].
  exact (proj2 (togglePatientSelection_twice "p2" ["p1"; "p2"; "p3"])
           ltac:(by right; left)).
Defined.

(** ** The loading flag of the home screen *)

(** X28. The two fetches of the home screen share one loading flag.  Once its
    mount effect has started both, the flag is up and two requests are in
    flight; when the answer for the spaces comes first and [fetchSpaces]
    runs to its end, the flag is down while the request for the patients is
    still in flight. *)
Theorem home_loading_cleared_early (env : Env) (w : World) (token : string) (user : User) :
  auth_token w = Some token -> truthy token = true ->
  auth_user w = Some user -> parked w = [] ->
  let w1 := final (invoke env PatientsMount w) in
  let w2 := final (settle env 0 w1) in
  let w3 := final (settle env 1 w2) in
  flags w1 HomeIsLoading = true
  /\ length (parked w1) = 2%nat
  /\ ((flags w2 HomeIsLoading = false
       /\ waits_for (HomePatients.patients_request token) w2)
      \/ (flags w3 HomeIsLoading = false
          /\ waits_for (HomePatients.patients_request token) w3)).
Proof.
  intros Htoken Htruthy Huser Hparked.
  remember (invoke env PatientsMount w) as r eqn:Hr.
  unfold invoke, perform in Hr. rewrite Htoken, Huser in Hr.
  unfold HomePatients.mountEffect, HomePatients.fetchSpaces,
    HomePatients.fetchPatients, nonempty in Hr.
  rewrite Htruthy in Hr.
  run_cases Hr. subst r. cbn [final]. rewrite Hparked.
  cbn zeta. unfold settle, waits_for. cbn.
  split; [reflexivity|]. split; [reflexivity|].
  destruct (net env (clock w) (HomeScreen.spaces_request ConfigBase token user))
    as [response|e].
  - cbn. destruct (ok response); cbn.
    + right. destruct (body_read env KOpaque (S (clock w)) response); cbn.
      all: split; [reflexivity|]; eexists; split; reflexivity.
    + left. split; [reflexivity|]. eexists. split; reflexivity.
  - left. cbn. split; [reflexivity|]. eexists. split; reflexivity.
Qed.

Lemma home_loading_cleared_early_witness :
  let w1 := final (invoke demo_env PatientsMount signed_in) in
  let w3 := final (settle demo_env 1 (final (settle demo_env 0 w1))) in
  flags w1 HomeIsLoading = true
  /\ flags w3 HomeIsLoading = false
  /\ waits_for (HomePatients.patients_request "tok") w3.
Proof.
  destruct (home_loading_cleared_early demo_env signed_in "tok"
              (UseAuth.format_user demo_user) eq_refl eq_refl eq_refl eq_refl)
    as (Hraised & _ & [[Hflag _]|[Hflag Hwaits]]).
  - discriminate Hflag.
  - split; [exact Hraised|]. split; [exact Hflag|exact Hwaits].
Defined.
